(** * slurm_exporter: the GPU accounting of [gpus.go]

    A shallow embedding of the two text parsers ([ParseAllocatedGPUs],
    [ParseTotalGPUs]) and of the aggregation loop of [ParseGPUsMetrics],
    with the properties of the specification stated over them.

    - Go strings are byte strings: Rocq's [string].
    - [float64] is IEEE 754 binary64, taken from the Standard Library's
      executable specification [SpecFloat] (precision 53, emax 1024).
    - [map[string]float64] is stdpp's [gmap string float64]; reading a
      missing key gives the zero value, as in Go.
    - A run-time panic (index out of range) is the result [None]. *)

From Stdlib Require Import ZArith Ascii String List Bool Lia.
From Stdlib Require Import Floats.SpecFloat.
From stdpp Require Import base option list strings gmap fin_maps.

Open Scope string_scope.
Open Scope Z_scope.

(** ** Bytes used by the parsers *)

Definition newline : string := String "010"%char EmptyString.
Definition quote : string := String "034"%char EmptyString.

(** ** Go's [strings] package, on byte strings *)

Module Strings.

Fixpoint mem (c : ascii) (cutset : string) : bool :=
  match cutset with
  | EmptyString => false
  | String d cutset' => if Ascii.eqb c d then true else mem c cutset'
  end.

(** [strings.HasPrefix(s, prefix)] *)
Fixpoint HasPrefix (s prefix : string) {struct prefix} : bool :=
  match prefix with
  | EmptyString => true
  | String p prefix' =>
      match s with
      | EmptyString => false
      | String c s' => if Ascii.eqb c p then HasPrefix s' prefix' else false
      end
  end.

Fixpoint drop (n : nat) (s : string) : string :=
  match n with
  | O => s
  | S n' => match s with EmptyString => EmptyString | String _ s' => drop n' s' end
  end.

(** [strings.TrimPrefix(s, prefix)] *)
Definition TrimPrefix (s prefix : string) : string :=
  if HasPrefix s prefix then drop (String.length prefix) s else s.

(** [strings.Split(s, sep)] for a non-empty separator: the pieces of [s]
    between the successive, non-overlapping occurrences of [sep], found
    from the left.  [skip] counts the bytes of a matched separator that
    are still to be passed over.  (The source only calls it with the
    one-byte separators newline, comma, equals, colon and parenthesis.) *)
Fixpoint split_scan (sep : string) (skip : nat) (s : string) : list string :=
  match s with
  | EmptyString => [EmptyString]
  | String c s' =>
      match skip with
      | S k => split_scan sep k s'
      | O =>
          if HasPrefix s sep
          then EmptyString :: split_scan sep (Nat.pred (String.length sep)) s'
          else match split_scan sep O s' with
               | piece :: pieces => String c piece :: pieces
               | [] => [String c EmptyString]
               end
      end
  end.

Definition Split (s sep : string) : list string := split_scan sep O s.

(** [strings.Trim(s, cutset)] for a cutset of ASCII bytes: drop the
    leading and the trailing bytes that belong to the cutset. *)
Fixpoint TrimLeft (s cutset : string) : string :=
  match s with
  | EmptyString => EmptyString
  | String c s' => if mem c cutset then TrimLeft s' cutset else s
  end.

Fixpoint TrimRight (s cutset : string) : string :=
  match s with
  | EmptyString => EmptyString
  | String c s' =>
      match TrimRight s' cutset with
      | EmptyString => if mem c cutset then EmptyString else String c EmptyString
      | t => String c t
      end
  end.

Definition Trim (s cutset : string) : string :=
  TrimLeft (TrimRight s cutset) cutset.

(** White space as [unicode.IsSpace] sees it in UTF-8 text: the width in
    bytes of the white-space rune that starts [s], or 0 when none does.
    Tab, LF, VT, FF, CR and space are one byte; U+0085 and U+00A0 are
    C2 85 and C2 A0; U+1680 is E1 9A 80; U+2000..U+200A, U+2028, U+2029
    and U+202F are E2 80 xx; U+205F is E2 81 9F; U+3000 is E3 80 80.
    Their first bytes are never continuation bytes, so Go's decoder
    always starts a rune on them. *)
Definition space_width (s : string) : nat :=
  match s with
  | EmptyString => O
  | String c s1 =>
      let b := nat_of_ascii c in
      if ((9 <=? b) && (b <=? 13))%nat || (b =? 32)%nat then 1%nat
      else match s1 with
           | EmptyString => O
           | String c1 s2 =>
               let b1 := nat_of_ascii c1 in
               if (b =? 194)%nat then
                 if (b1 =? 133)%nat || (b1 =? 160)%nat then 2%nat else O
               else match s2 with
                    | EmptyString => O
                    | String c2 _ =>
                        let b2 := nat_of_ascii c2 in
                        if (b =? 225)%nat then
                          if (b1 =? 154)%nat && (b2 =? 128)%nat then 3%nat else O
                        else if (b =? 226)%nat then
                          if (b1 =? 128)%nat then
                            if ((128 <=? b2) && (b2 <=? 138))%nat
                               || (b2 =? 168)%nat || (b2 =? 169)%nat
                               || (b2 =? 175)%nat
                            then 3%nat else O
                          else if (b1 =? 129)%nat && (b2 =? 159)%nat then 3%nat
                          else O
                        else if (b =? 227)%nat then
                          if (b1 =? 128)%nat && (b2 =? 128)%nat then 3%nat else O
                        else O
                    end
           end
  end.

Definition push_field (w : string) (fs : list string) : list string :=
  match w with EmptyString => fs | _ => w :: fs end.

(** [fields_scan skip s] is the field that starts at the head of [s]
    (empty when [s] starts with white space) and the fields after it. *)
Fixpoint fields_scan (skip : nat) (s : string) : string * list string :=
  match s with
  | EmptyString => (EmptyString, [])
  | String c s' =>
      match skip with
      | S k => fields_scan k s'
      | O =>
          match space_width s with
          | O => let '(w, fs) := fields_scan O s' in (String c w, fs)
          | S n => let '(w, fs) := fields_scan n s' in
                   (EmptyString, push_field w fs)
          end
      end
  end.

(** [strings.Fields(s)]: the maximal runs of bytes without white space. *)
Definition Fields (s : string) : list string :=
  let '(w, fs) := fields_scan O s in push_field w fs.

End Strings.

(** ** binary64 *)

Definition prec : Z := 53.
Definition emax : Z := 1024.

Definition float64 : Type := spec_float.

Module F64.
Definition zero : float64 := S754_zero false.
Definition add : float64 -> float64 -> float64 := SFadd prec emax.
Definition sub : float64 -> float64 -> float64 := SFsub prec emax.
Definition div : float64 -> float64 -> float64 := SFdiv prec emax.
Definition leb : float64 -> float64 -> bool := SFleb.
Definition ltb : float64 -> float64 -> bool := SFltb.
Definition eqb : float64 -> float64 -> bool := SFeqb.

(** The integer [z] as a binary64 number (round to nearest even). *)
Definition of_Z (z : Z) : float64 := binary_normalize prec emax z 0 false.

Definition is_nan (x : float64) : bool :=
  match x with S754_nan => true | _ => false end.

(** Finite: neither an infinity nor NaN (Go: [!math.IsInf(x, 0) &&
    !math.IsNaN(x)]). *)
Definition is_finite (x : float64) : bool :=
  match x with
  | S754_zero _ | S754_finite _ _ _ => true
  | S754_infinity _ | S754_nan => false
  end.

Definition is_zero (x : float64) : bool :=
  match x with S754_zero _ => true | _ => false end.

(** [x] is a binary64 number: a finite [x] has its mantissa and exponent
    in canonical form and in range. *)
Definition valid (x : float64) : bool := valid_binary prec emax x.
End F64.

(** ** [strconv.ParseFloat(text, 64)], the value it returns

    The parsers discard the error, so only the value matters: the nearest
    binary64 number for well-formed text, an infinity when that overflows,
    and 0 for text that is not a number.  [Strconv.ParseFloat] covers the
    decimal grammar (sign, digits, fraction, exponent) and the special
    texts inf, infinity and nan in any letter case.  Digit separators and
    hexadecimal mantissas are left out, which is why the parsers below take
    the conversion as a parameter. *)

Module Strconv.

Definition lower (c : ascii) : ascii :=
  let b := nat_of_ascii c in
  if ((65 <=? b) && (b <=? 90))%nat then ascii_of_nat (b + 32) else c.

(** [s] equals the lower-case text [t] up to letter case. *)
Fixpoint eq_fold (s t : string) : bool :=
  match s, t with
  | EmptyString, EmptyString => true
  | String c s', String d t' => if Ascii.eqb (lower c) d then eq_fold s' t' else false
  | _, _ => false
  end.

Definition is_digit (c : ascii) : bool :=
  let b := nat_of_ascii c in ((48 <=? b) && (b <=? 57))%nat.

Definition digit_val (c : ascii) : Z := Z.of_nat (nat_of_ascii c) - 48.

(** A run of decimal digits: the number read so far, how many digits
    were read, and the text left. *)
Fixpoint read_digits (s : string) (acc : Z) (n : nat) : Z * nat * string :=
  match s with
  | String c s' =>
      if is_digit c then read_digits s' (10 * acc + digit_val c) (S n)
      else (acc, n, s)
  | EmptyString => (acc, n, s)
  end.

Definition read_sign (s : string) : bool * string :=
  match s with
  | String c s' =>
      if Ascii.eqb c "+" then (false, s')
      else if Ascii.eqb c "-" then (true, s')
      else (false, s)
  | EmptyString => (false, s)
  end.

Definition special (s : string) : option float64 :=
  if eq_fold s "nan" then Some S754_nan
  else
    let '(neg, t) := read_sign s in
    if eq_fold t "inf" || eq_fold t "infinity" then Some (S754_infinity neg)
    else None.

(** Mantissa: digits with at most one point and at least one digit.
    Gives the digits as one integer and the number of fraction digits. *)
Definition read_mantissa (s : string) : option (Z * Z * string) :=
  let '(m1, n1, r1) := read_digits s 0 O in
  match r1 with
  | String c r2 =>
      if Ascii.eqb c "." then
        let '(m2, n2, r3) := read_digits r2 m1 O in
        if (n1 + n2 =? 0)%nat then None else Some (m2, Z.of_nat n2, r3)
      else if (n1 =? 0)%nat then None else Some (m1, 0, r1)
  | EmptyString => if (n1 =? 0)%nat then None else Some (m1, 0, r1)
  end.

(** What follows the mantissa: nothing, or e/E, a sign, digits. *)
Definition read_exponent (s : string) : option Z :=
  match s with
  | EmptyString => Some 0
  | String c r =>
      if Ascii.eqb (lower c) "e" then
        let '(neg, r1) := read_sign r in
        let '(e, n, r2) := read_digits r1 0 O in
        match n, r2 with
        | S _, EmptyString => Some (if neg then - e else e)
        | _, _ => None
        end
      else None
  end.

(** Sign, mantissa digits and decimal exponent of well-formed text. *)
Definition readFloat (s : string) : option (bool * Z * Z) :=
  let '(neg, r) := read_sign s in
  match read_mantissa r with
  | None => None
  | Some (m, nfrac, r1) =>
      match read_exponent r1 with
      | None => None
      | Some e => Some (neg, m, e - nfrac)
      end
  end.

(** [m * 10^e10], rounded to the nearest binary64 number. *)
Definition of_decimal (neg : bool) (m e10 : Z) : float64 :=
  match m with
  | Zpos p =>
      if 0 <=? e10
      then binary_round prec emax neg (p * Z.to_pos (10 ^ e10)) 0
      else
        let '(q, e, l) :=
          SFdiv_core_binary prec emax (Zpos p) 0 (10 ^ (- e10)) 0 in
        binary_round_aux prec emax neg q e l
  | _ => S754_zero neg
  end.

Definition ParseFloat (s : string) : float64 :=
  match special s with
  | Some f => f
  | None =>
      match readFloat s with
      | Some (neg, m, e10) => of_decimal neg m e10
      | None => F64.zero
      end
  end.

End Strconv.

(** ** The metrics record (gpus.go, lines 27-32) *)

Record GPUsMetrics : Type := {
  alloc : float64;
  idle : float64;
  total : float64;
  utilization : float64
}.

Definition set_alloc (v : float64) (r : GPUsMetrics) : GPUsMetrics :=
  {| alloc := v; idle := idle r; total := total r; utilization := utilization r |}.
Definition set_idle (v : float64) (r : GPUsMetrics) : GPUsMetrics :=
  {| alloc := alloc r; idle := v; total := total r; utilization := utilization r |}.
Definition set_total (v : float64) (r : GPUsMetrics) : GPUsMetrics :=
  {| alloc := alloc r; idle := idle r; total := v; utilization := utilization r |}.
Definition set_utilization (v : float64) (r : GPUsMetrics) : GPUsMetrics :=
  {| alloc := alloc r; idle := idle r; total := total r; utilization := v |}.

(** ** Maps and loops *)

(** [m[k]] on a [map[string]float64]: the zero value for a missing key. *)
Definition get (m : gmap string float64) (k : string) : float64 :=
  default F64.zero (m !! k).

(** [m[k] += v] *)
Definition add_to (m : gmap string float64) (k : string) (v : float64)
  : gmap string float64 :=
  <[k := F64.add (get m k) v]> m.

(** [for _, x := range xs { body }] over a state, stopping at a panic. *)
Fixpoint for_range {A St : Type} (xs : list A) (body : St -> A -> option St)
    (st : St) : option St :=
  match xs with
  | [] => Some st
  | x :: xs' =>
      match body st x with
      | Some st' => for_range xs' body st'
      | None => None
      end
  end.

(** ** The parsers *)

Section Parsers.

(** [strconv.ParseFloat(text, 64)] with its error discarded. *)
Variable ParseFloat : string -> float64.

(** Body of the inner loop of [ParseAllocatedGPUs] (lines 60-67). *)
Definition allocated_resource (gpu_map : gmap string float64)
    (resource : string) : option (gmap string float64) :=
  if Strings.HasPrefix resource "gres/gpu:" then
    let descriptor := Strings.TrimPrefix resource "gres/gpu:" in
    let values := Strings.Split descriptor "=" in
    gpu_type ← values !! 0%nat;
    text ← values !! 1%nat;
    let count := ParseFloat text in
    Some (add_to gpu_map gpu_type count)
  else Some gpu_map.

(** Body of the outer loop of [ParseAllocatedGPUs] (lines 53-68). *)
Definition allocated_line (gpu_map : gmap string float64) (line : string)
  : option (gmap string float64) :=
  if (String.length line =? 0)%nat then Some gpu_map
  else
    let line := Strings.Trim line quote in
    for_range (Strings.Split line ",") allocated_resource gpu_map.

(** [ParseAllocatedGPUs] on the text [output] that squeue printed. *)
Definition ParseAllocatedGPUs (output : string)
  : option (gmap string float64) :=
  if (String.length output =? 0)%nat then Some ∅
  else for_range (Strings.Split output newline) allocated_line ∅.

(** Body of the inner loop of [ParseTotalGPUs] (lines 93-101). *)
Definition total_resource (gpu_map : gmap string float64)
    (resource : string) : option (gmap string float64) :=
  if Strings.HasPrefix resource "gpu:" then
    descriptor ← Strings.Split resource ":" !! 2%nat;
    descriptor ← Strings.Split descriptor "(" !! 0%nat;
    let node_gpus := ParseFloat descriptor in
    type_gpu ← Strings.Split resource ":" !! 1%nat;
    Some (add_to gpu_map type_gpu node_gpus)
  else Some gpu_map.

(** Body of the outer loop of [ParseTotalGPUs] (lines 85-102). *)
Definition total_line (gpu_map : gmap string float64) (line : string)
  : option (gmap string float64) :=
  if (String.length line =? 0)%nat then Some gpu_map
  else
    let line := Strings.Trim line quote in
    gres ← Strings.Fields line !! 1%nat;
    for_range (Strings.Split gres ",") total_resource gpu_map.

(** [ParseTotalGPUs] on the text [output] that sinfo printed. *)
Definition ParseTotalGPUs (output : string)
  : option (gmap string float64) :=
  if (String.length output =? 0)%nat then Some ∅
  else for_range (Strings.Split output newline) total_line ∅.

(** One turn of the loop of [ParseGPUsMetrics] (lines 129-134). *)
Definition metrics_body (totals allocs : gmap string float64)
    (gpu_type : string) (types : gmap string GPUsMetrics)
  : gmap string GPUsMetrics :=
  let types := <[gpu_type := Build_GPUsMetrics F64.zero F64.zero F64.zero F64.zero]> types in
  let types := alter (set_alloc (get allocs gpu_type)) gpu_type types in
  let types := alter (set_total (get totals gpu_type)) gpu_type types in
  let types :=
    alter (set_idle (F64.sub (get totals gpu_type) (get allocs gpu_type)))
      gpu_type types in
  alter (set_utilization (F64.div (get allocs gpu_type) (get totals gpu_type)))
    gpu_type types.

(** The loop [for gpu_type := range totals] (lines 128-135): the
    Aggregator of the specification. *)
Definition AggregateGPUs (totals allocs : gmap string float64)
  : gmap string GPUsMetrics :=
  map_fold (fun gpu_type _ types => metrics_body totals allocs gpu_type types)
    ∅ totals.

(** [ParseGPUsMetrics]: sinfo is read first, then squeue. *)
Definition ParseGPUsMetrics (sinfo_output squeue_output : string)
  : option (gmap string GPUsMetrics) :=
  totals ← ParseTotalGPUs sinfo_output;
  allocs ← ParseAllocatedGPUs squeue_output;
  Some (AggregateGPUs totals allocs).

(** [GPUsGetMetrics] (lines 35-37) *)
Definition GPUsGetMetrics (sinfo_output squeue_output : string)
  : option (gmap string GPUsMetrics) :=
  ParseGPUsMetrics sinfo_output squeue_output.

End Parsers.

(** ** What the loops leave in the maps *)

(** The record that one turn of the loop leaves under [gpu_type]. *)
Definition record_of (totals allocs : gmap string float64)
    (gpu_type : string) : GPUsMetrics :=
  {| alloc := get allocs gpu_type;
     idle := F64.sub (get totals gpu_type) (get allocs gpu_type);
     total := get totals gpu_type;
     utilization := F64.div (get allocs gpu_type) (get totals gpu_type) |}.

(** ** Signs *)

(** [x] is a number (not NaN) whose sign bit is [sx]. *)
Definition has_sign (sx : bool) (x : float64) : Prop :=
  match x with
  | S754_zero s | S754_infinity s | S754_finite s _ _ => s = sx
  | S754_nan => False
  end.

(** [0 <= x] as Go's comparison decides it: false on NaN, true on -0. *)
Definition nonneg (x : float64) : Prop := F64.leb F64.zero x = true.

(** ** Constants and samples of the examples *)

(** 2^52 * 2^-53 = 0.5 *)
Definition half : float64 := S754_finite false 4503599627370496 (-53).

(** -2 / 4 = -0.5 *)
Definition minus_half : float64 := S754_finite true 4503599627370496 (-53).

Definition sample_squeue : string := "gres/gpu:a100=2,cpu=1".
Definition sample_sinfo : string := "node01 gpu:a100:4(S:0)".

(** ** Separators, count texts and well-formed node lines *)

(** A one-byte separator. *)
Definition sep1 (c : ascii) : string := String c EmptyString.


(** The texts that [ParseAllocatedGPUs] hands to [strconv.ParseFloat]:
    [values[1]] of every token with the prefix [gres/gpu:]. *)
Definition allocated_count_texts (output : string) : list string :=
  line ← Strings.Split output newline;
  if (String.length line =? 0)%nat then []
  else
    resource ← Strings.Split (Strings.Trim line quote) ",";
    if Strings.HasPrefix resource "gres/gpu:" then
      match Strings.Split (Strings.TrimPrefix resource "gres/gpu:") "=" !! 1%nat with
      | Some text => [text]
      | None => []
      end
    else [].

(** The texts that [ParseTotalGPUs] hands to [strconv.ParseFloat]: for
    every token of a second field with the prefix [gpu:], the third colon
    segment up to its first parenthesis. *)
Definition total_count_texts (output : string) : list string :=
  line ← Strings.Split output newline;
  if (String.length line =? 0)%nat then []
  else
    match Strings.Fields (Strings.Trim line quote) !! 1%nat with
    | None => []
    | Some gres =>
        resource ← Strings.Split gres ",";
        if Strings.HasPrefix resource "gpu:" then
          match Strings.Split resource ":" !! 2%nat with
          | Some descriptor =>
              match Strings.Split descriptor "(" !! 0%nat with
              | Some text => [text]
              | None => []
              end
          | None => []
          end
        else []
    end.

(** Every value of the map is non-negative. *)
Definition values_nonneg (gpu_map : gmap string float64) : Prop :=
  forall k v, gpu_map !! k = Some v -> nonneg v.

Fixpoint all_bytes (p : ascii -> bool) (s : string) : bool :=
  match s with
  | EmptyString => true
  | String c s' => p c && all_bytes p s'
  end.

(** Printable ASCII other than the space. *)
Definition graphic (c : ascii) : bool :=
  let b := nat_of_ascii c in ((33 <=? b) && (b <=? 126))%nat.

(** A byte of a node name, a GPU type or a count: graphic, and none of
    quote, parenthesis, comma and colon. *)
Definition plain (c : ascii) : bool :=
  let b := nat_of_ascii c in
  graphic c && negb ((b =? 34) || (b =? 40) || (b =? 44) || (b =? 58))%nat.

(** A byte of the text between the parentheses: graphic, and neither
    quote nor comma. *)
Definition suffix_byte (c : ascii) : bool :=
  let b := nat_of_ascii c in
  graphic c && negb ((b =? 34) || (b =? 44))%nat.

(** The line that sinfo prints for a node with one GPU type. *)
Definition node_line (node gpu_type count suffix : string) : string :=
  node ++ " gpu:" ++ gpu_type ++ ":" ++ count ++ "(" ++ suffix ++ ")".

Fixpoint join_lines (lines : list string) : string :=
  match lines with
  | [] => EmptyString
  | [line] => line
  | line :: lines' => line ++ newline ++ join_lines lines'
  end.

(** A line as the command prints it: bare, or between quotes. *)
Definition wrap (quoted : bool) (line : string) : string :=
  if quoted then quote ++ line ++ quote else line.

(** The text of a command: its lines, bare or quoted, separated by a
    newline, with or without a newline after the last one. *)
Definition command_text (quoted final_newline : bool) (lines : list string)
  : string :=
  join_lines (map (wrap quoted) lines)
  ++ (if final_newline then newline else EmptyString).

(** What sinfo reports for one node: its name, the count text of the GPU
    type and the text between the parentheses. *)
Record node_report : Type := {
  node_name : string;
  node_count : string;
  node_suffix : string
}.

Definition report_line (gpu_type : string) (r : node_report) : string :=
  node_line (node_name r) gpu_type (node_count r) (node_suffix r).

Definition well_formed_report (r : node_report) : Prop :=
  node_name r <> EmptyString
  /\ all_bytes plain (node_name r) = true
  /\ all_bytes plain (node_count r) = true
  /\ all_bytes suffix_byte (node_suffix r) = true.

Definition two_nodes : list node_report :=
  [ {| node_name := "node01"; node_count := "2"; node_suffix := "S:0" |};
    {| node_name := "node02"; node_count := "2"; node_suffix := "S:1" |} ].

(** ** Statements of the specification that the code does not meet *)

(** C3, as the specification states it, for one emitted record: with a
    positive total the utilization is finite, non-negative and equal to
    alloc / total; and it is non-finite exactly when the total is zero. *)
Definition utilization_claim (r : GPUsMetrics) : Prop :=
  (F64.ltb F64.zero (total r) = true ->
     F64.is_finite (utilization r) = true
     /\ nonneg (utilization r)
     /\ utilization r = F64.div (alloc r) (total r))
  /\ (F64.is_finite (utilization r) = false <-> F64.is_zero (total r) = true).

(** ** The parsers as loops continued from a map *)

(** The line loop of [ParseAllocatedGPUs] (lines 52-69) run on [text] from
    the map [gpu_map]. *)
Definition allocated_lines (ParseFloat : string -> float64)
    (gpu_map : gmap string float64) (text : string)
  : option (gmap string float64) :=
  for_range (Strings.Split text newline) (allocated_line ParseFloat) gpu_map.

(** The line loop of [ParseTotalGPUs] (lines 84-103) run on [text] from
    the map [gpu_map]. *)
Definition total_lines (ParseFloat : string -> float64)
    (gpu_map : gmap string float64) (text : string)
  : option (gmap string float64) :=
  for_range (Strings.Split text newline) (total_line ParseFloat) gpu_map.

(** A token on which the inner loop of [ParseAllocatedGPUs] panics: it has
    the prefix [gres/gpu:] and no equals sign. *)
Definition allocated_bad_token (resource : string) : Prop :=
  Strings.HasPrefix resource "gres/gpu:" = true
  /\ Strings.mem "=" resource = false.

(** A line on which the loop of [ParseTotalGPUs] panics: it has fewer than
    two fields, or its second field holds a token with the prefix [gpu:]
    and fewer than three colon segments. *)
Definition total_bad_line (line : string) : Prop :=
  (length (Strings.Fields (Strings.Trim line quote)) < 2)%nat
  \/ exists gres resource,
       Strings.Fields (Strings.Trim line quote) !! 1%nat = Some gres
       /\ resource ∈ Strings.Split gres ","
       /\ Strings.HasPrefix resource "gpu:" = true
       /\ (length (Strings.Split resource ":") < 3)%nat.

(** ** Well-formed command output, token by token *)

Fixpoint join_with (sep : string) (pieces : list string) : string :=
  match pieces with
  | [] => EmptyString
  | [piece] => piece
  | piece :: pieces' => piece ++ sep ++ join_with sep pieces'
  end.

(** A byte of a squeue token: any byte but newline, quote and comma. *)
Definition tres_byte (c : ascii) : bool :=
  let b := nat_of_ascii c in negb ((b =? 10) || (b =? 34) || (b =? 44))%nat.

(** A byte of a GPU type or of a count text in a squeue token: a token
    byte other than the equals sign. *)
Definition field_byte (c : ascii) : bool :=
  tres_byte c && negb (nat_of_ascii c =? 61)%nat.

(** A resource of a job as squeue prints it: a typed GPU resource
    [gres/gpu:<type>=<count>], or any other token ([cpu=1], [gres/gpu=2],
    [mem=100G], ...). *)
Inductive tres : Type :=
| tres_other (text : string)
| tres_gpu (gpu_type count : string).

Definition tres_text (t : tres) : string :=
  match t with
  | tres_other text => text
  | tres_gpu gpu_type count => "gres/gpu:" ++ gpu_type ++ "=" ++ count
  end.

Definition well_formed_tres (t : tres) : Prop :=
  match t with
  | tres_other text =>
      all_bytes tres_byte text = true
      /\ Strings.HasPrefix text "gres/gpu:" = false
  | tres_gpu gpu_type count =>
      all_bytes field_byte gpu_type = true
      /\ all_bytes field_byte count = true
  end.

(** The GPU type and the count text that a token contributes. *)
Definition tres_count (t : tres) : option (string * string) :=
  match t with
  | tres_other _ => None
  | tres_gpu gpu_type count => Some (gpu_type, count)
  end.

(** The line of a job: its resources between commas. *)
Definition job_line (job : list tres) : string :=
  join_with "," (map tres_text job).

(** The count texts contributed to [gpu_type], in order. *)
Fixpoint counts_of (gpu_type : string) (contribs : list (string * string))
  : list string :=
  match contribs with
  | [] => []
  | (ty, count) :: contribs' =>
      if String.eqb ty gpu_type then count :: counts_of gpu_type contribs'
      else counts_of gpu_type contribs'
  end.

(** The sum of the converted count texts, from 0, left to right. *)
Definition sum_counts (ParseFloat : string -> float64) (counts : list string)
  : float64 :=
  foldl (fun acc count => F64.add acc (ParseFloat count)) F64.zero counts.

(** [gpu_map[type] += count] for each contribution in turn. *)
Definition add_counts (ParseFloat : string -> float64)
    (gpu_map : gmap string float64) (contribs : list (string * string))
  : gmap string float64 :=
  foldl (fun m p => add_to m p.1 (ParseFloat p.2)) gpu_map contribs.

(** What the map gives a type after the contributions: nothing when none
    is for the type, else the sum of the counts for the type. *)
Definition total_of (ParseFloat : string -> float64) (gpu_type : string)
    (contribs : list (string * string)) : option float64 :=
  match counts_of gpu_type contribs with
  | [] => None
  | counts => Some (sum_counts ParseFloat counts)
  end.

(** The squeue sample of the source (line 57) and a second job. *)
Definition sample_jobs : list (list tres) :=
  [ [ tres_other "billing=30"; tres_other "cpu=1"; tres_gpu "a100" "2";
      tres_other "gres/gpu=2"; tres_other "mem=100G"; tres_other "node=1" ];
    [ tres_gpu "a100" "1"; tres_gpu "k80" "4"; tres_other "cpu=8" ] ].

(** A generic resource of a node as sinfo prints it: a GPU resource
    [gpu:<type>:<count>], with or without [(<suffix>)] after it, or any
    other token ([(null)], [mps:100], ...). *)
Inductive gres : Type :=
| gres_other (text : string)
| gres_gpu (gpu_type count : string) (suffix : option string).

Definition gres_text (g : gres) : string :=
  match g with
  | gres_other text => text
  | gres_gpu gpu_type count suffix =>
      "gpu:" ++ gpu_type ++ ":" ++ count
      ++ match suffix with
         | Some s => "(" ++ s ++ ")"
         | None => EmptyString
         end
  end.

Definition well_formed_gres (g : gres) : Prop :=
  match g with
  | gres_other text =>
      text <> EmptyString
      /\ all_bytes suffix_byte text = true
      /\ Strings.HasPrefix text "gpu:" = false
  | gres_gpu gpu_type count suffix =>
      all_bytes plain gpu_type = true
      /\ all_bytes plain count = true
      /\ match suffix with
         | Some s => all_bytes suffix_byte s = true
         | None => True
         end
  end.

(** The GPU type and the count text that a token contributes. *)
Definition gres_count (g : gres) : option (string * string) :=
  match g with
  | gres_other _ => None
  | gres_gpu gpu_type count _ => Some (gpu_type, count)
  end.

(** A node and its generic resources. *)
Record node_gres : Type := {
  gres_node : string;
  gres_tokens : list gres
}.

(** The line of a node: its name, a space, its resources between commas. *)
Definition node_gres_line (n : node_gres) : string :=
  gres_node n ++ " " ++ join_with "," (map gres_text (gres_tokens n)).

Definition well_formed_node (n : node_gres) : Prop :=
  gres_node n <> EmptyString
  /\ all_bytes suffix_byte (gres_node n) = true
  /\ gres_tokens n <> []
  /\ Forall well_formed_gres (gres_tokens n).

Definition sample_nodes : list node_gres :=
  [ {| gres_node := "node01";
       gres_tokens := [ gres_gpu "a100" "4" (Some "S:0");
                        gres_gpu "k80" "2" (Some "S:1") ] |};
    {| gres_node := "node02"; gres_tokens := [ gres_other "(null)" ] |};
    {| gres_node := "node03";
       gres_tokens := [ gres_gpu "a100" "4" None; gres_other "mps:100" ] |} ].

(** ** The range loop in a given order *)

(** The loop of [ParseGPUsMetrics] (lines 128-135) with its turns taken in
    the order [keys]: Go leaves the order of a range over a map open. *)
Definition aggregate_in_order (totals allocs : gmap string float64)
    (keys : list string) : gmap string GPUsMetrics :=
  foldl (fun types gpu_type => metrics_body totals allocs gpu_type types)
    ∅ keys.

(** [keys] is an order in which a range over [m] can visit its keys. *)
Definition range_order {V : Type} (m : gmap string V) (keys : list string)
  : Prop :=
  NoDup keys /\ forall k, k ∈ keys <-> is_Some (m !! k).

(** ** The collector (gpus.go, lines 163-196)

    The Prometheus client library is not part of the repository: a
    descriptor and a constant metric stand for the arguments that the code
    passes to [prometheus.NewDesc] and [prometheus.MustNewConstMetric], and
    a channel for the list of the values sent on it, the oldest first. *)

Record Desc : Type := {
  fqName : string;
  help : string;
  variableLabels : list string;
  constLabels : list (string * string)
}.

(** [prometheus.NewDesc(fqName, help, variableLabels, constLabels)] *)
Definition NewDesc (fqName help : string) (variableLabels : list string)
    (constLabels : list (string * string)) : Desc :=
  {| fqName := fqName; help := help; variableLabels := variableLabels;
     constLabels := constLabels |}.

(** The struct [GPUsCollector] (lines 174-179).  Its fields are [alloc],
    [idle], [total] and [utilization] in the source, names that the
    metrics record has already taken here. *)
Record GPUsCollector : Type := {
  desc_alloc : Desc;
  desc_idle : Desc;
  desc_total : Desc;
  desc_utilization : Desc
}.

(** [NewGPUsCollector] (lines 163-172); [nil] const labels are the empty
    list. *)
Definition NewGPUsCollector : GPUsCollector :=
  let labels := ["type"] in
  {| desc_alloc := NewDesc "slurm_gpus_alloc" "Allocated GPUs by type" labels [];
     desc_idle := NewDesc "slurm_gpus_idle" "Idle GPUs by type" labels [];
     desc_total := NewDesc "slurm_gpus_total" "Total GPUs by type" labels [];
     desc_utilization :=
       NewDesc "slurm_gpus_utilization" "Total GPU utilization by type"
         labels [] |}.

(** [Describe] (lines 182-187): what it sends on the channel. *)
Definition Describe (cc : GPUsCollector) : list Desc :=
  [desc_alloc cc; desc_idle cc; desc_total cc; desc_utilization cc].

Inductive ValueType : Type := CounterValue | GaugeValue | UntypedValue.

Record ConstMetric : Type := {
  metric_desc : Desc;
  metric_valueType : ValueType;
  metric_value : float64;
  metric_labelValues : list string
}.

(** [prometheus.MustNewConstMetric(desc, valueType, value, labelValues...)] *)
Definition MustNewConstMetric (desc : Desc) (valueType : ValueType)
    (value : float64) (labelValues : list string) : ConstMetric :=
  {| metric_desc := desc; metric_valueType := valueType;
     metric_value := value; metric_labelValues := labelValues |}.

(** The four metrics that one turn of the loop of [Collect] sends for the
    record [r] of [gpu_type] (lines 191-194). *)
Definition type_metrics (cc : GPUsCollector) (gpu_type : string)
    (r : GPUsMetrics) : list ConstMetric :=
  [ MustNewConstMetric (desc_alloc cc) GaugeValue (alloc r) [gpu_type];
    MustNewConstMetric (desc_idle cc) GaugeValue (idle r) [gpu_type];
    MustNewConstMetric (desc_total cc) GaugeValue (total r) [gpu_type];
    MustNewConstMetric (desc_utilization cc) GaugeValue (utilization r)
      [gpu_type] ].

(** One turn of the loop of [Collect]: [cm[gpu_type]] is a pointer, and
    reading a field through the nil pointer of a missing key panics. *)
Definition collect_type (cc : GPUsCollector) (cm : gmap string GPUsMetrics)
    (sent : list ConstMetric) (gpu_type : string)
  : option (list ConstMetric) :=
  r ← cm !! gpu_type;
  Some (sent ++ type_metrics cc gpu_type r)%list.

(** The loop of [Collect] (lines 190-195) with the range over [cm] taking
    the keys in the order [keys]. *)
Definition collect_loop (cc : GPUsCollector) (cm : gmap string GPUsMetrics)
    (keys : list string) : option (list ConstMetric) :=
  for_range keys (collect_type cc cm) [].

(** [Collect] (lines 188-196) on the outputs of the two commands; [order]
    is the order in which the range takes the keys of the map. *)
Definition Collect (cc : GPUsCollector) (ParseFloat : string -> float64)
    (sinfo_output squeue_output : string)
    (order : gmap string GPUsMetrics -> list string)
  : option (list ConstMetric) :=
  cm ← GPUsGetMetrics ParseFloat sinfo_output squeue_output;
  collect_loop cc cm (order cm).


(** What [Describe] announces about a metric: its descriptor, that it is
    a gauge, and as many label values as the descriptor has labels. *)
Definition announced (cc : GPUsCollector) (m : ConstMetric) : Prop :=
  metric_desc m ∈ Describe cc
  /\ metric_valueType m = GaugeValue
  /\ length (metric_labelValues m) = length (variableLabels (metric_desc m)).

(** ** Rounding records below one

    The division rounds a truncated mantissa [shr_m] at exponent [e]; the
    record stands for a number of at most one when the mantissa is at most
    [2 ^ (- e)], and below that bound when bits were shifted out. *)
Definition inexact (mrs : shr_record) : bool := shr_r mrs || shr_s mrs.

Definition below_one (mrs : shr_record) (e : Z) : Prop :=
  e <= 0 /\ 0 <= shr_m mrs <= 2 ^ (- e)
  /\ (inexact mrs = true -> shr_m mrs < 2 ^ (- e)).

(** * Lemmas *)

(** ** The models on the examples *)

Example half_is_one_over_two : F64.div (F64.of_Z 1) (F64.of_Z 2) = half.
Proof. reflexivity. Qed.

Example half_plus_half : F64.add half half = F64.of_Z 1.
Proof. reflexivity. Qed.

Example ParseFloat_tenth :
  Strconv.ParseFloat "0.1" = S754_finite false 7205759403792794 (-56).
Proof. reflexivity. Qed.

Example ParseFloat_largest :
  Strconv.ParseFloat "1.7976931348623157e308"
  = S754_finite false 9007199254740991 971.
Proof. vm_compute. reflexivity. Qed.

Example ParseFloat_overflow : Strconv.ParseFloat "1e400" = S754_infinity false.
Proof. vm_compute. reflexivity. Qed.

Example ParseFloat_signed : Strconv.ParseFloat "-2" = F64.of_Z (-2).
Proof. reflexivity. Qed.

Example ParseFloat_special :
  Strconv.ParseFloat "-Inf" = S754_infinity true
  /\ Strconv.ParseFloat "NaN" = S754_nan
  /\ Strconv.ParseFloat "infin" = F64.zero.
Proof. repeat split. Qed.

Example Split_keeps_empty_pieces :
  Strings.Split "a,b,,c," "," = ["a"; "b"; ""; "c"; ""].
Proof. reflexivity. Qed.

Example Fields_drops_space :
  Strings.Fields "  node01   gpu:a100:4(S:0) " = ["node01"; "gpu:a100:4(S:0)"].
Proof. reflexivity. Qed.

(** ** The aggregation loop *)

Section Aggregator.

Variables totals allocs : gmap string float64.

Lemma metrics_body_insert gpu_type types :
  metrics_body totals allocs gpu_type types
  = <[gpu_type := record_of totals allocs gpu_type]> types.
Proof.
  unfold metrics_body.
  rewrite !alter_insert_eq. reflexivity.
Qed.

Lemma AggregateGPUs_lookup k :
  AggregateGPUs totals allocs !! k
  = (fun _ => record_of totals allocs k) <$> totals !! k.
Proof.
  unfold AggregateGPUs.
  apply (map_fold_weak_ind
           (fun types m =>
             types !! k = (fun _ => record_of totals allocs k) <$> m !! k)).
  - rewrite !lookup_empty. reflexivity.
  - intros i x m r _ IH. rewrite metrics_body_insert.
    destruct (decide (i = k)) as [->|Hne].
    + rewrite !lookup_insert_eq. reflexivity.
    + rewrite !lookup_insert_ne by assumption. exact IH.
Qed.

End Aggregator.

(** ** Signs of binary64 results *)

Section Rounding.

Lemma shr_1_nonneg mrs : 0 <= shr_m mrs -> 0 <= shr_m (shr_1 mrs).
Proof.
  destruct mrs as [m r s]; simpl.
  destruct m as [|[p|p|]|p]; simpl; lia.
Qed.

Lemma iter_shr_1_nonneg p : forall mrs,
  0 <= shr_m mrs -> 0 <= shr_m (SpecFloat.iter_pos shr_1 p mrs).
Proof.
  induction p as [p IH|p IH|]; intros mrs H; simpl.
  - apply IH, IH, shr_1_nonneg, H.
  - apply IH, IH, H.
  - apply shr_1_nonneg, H.
Qed.

Lemma shr_record_of_loc_m m l : shr_m (shr_record_of_loc m l) = m.
Proof. destruct l as [|[]]; reflexivity. Qed.

Lemma shr_fexp_nonneg m e l :
  0 <= m -> 0 <= shr_m (fst (shr_fexp prec emax m e l)).
Proof.
  intros H. unfold shr_fexp, shr.
  destruct (fexp prec emax (Zdigits2 m + e) - e) as [|p|p]; simpl;
    try (rewrite shr_record_of_loc_m; exact H).
  apply iter_shr_1_nonneg. rewrite shr_record_of_loc_m. exact H.
Qed.

Lemma round_nearest_even_nonneg m l : 0 <= m -> 0 <= round_nearest_even m l.
Proof.
  intros H. unfold round_nearest_even.
  destruct l as [|[]]; try destruct (Z.even m); lia.
Qed.

(** Rounding a non-negative mantissa never gives NaN and keeps the sign:
    the result is a zero, a finite number or (on overflow) an infinity
    of sign [sx]. *)
Lemma binary_round_aux_sign sx m e l :
  0 <= m -> has_sign sx (binary_round_aux prec emax sx m e l).
Proof.
  intros H. unfold binary_round_aux.
  pose proof (shr_fexp_nonneg m e l H) as H1.
  destruct (shr_fexp prec emax m e l) as [mrs' e'] eqn:E1. simpl in H1.
  pose proof (shr_fexp_nonneg _ e' loc_Exact
                (round_nearest_even_nonneg _ (loc_of_shr_record mrs') H1)) as H2.
  destruct (shr_fexp prec emax _ e' loc_Exact) as [mrs'' e''] eqn:E2.
  simpl in H2.
  destruct (shr_m mrs'') as [|q|q]; simpl; try reflexivity; try lia.
  destruct (e'' <=? emax - prec); reflexivity.
Qed.

Lemma binary_round_sign sx m e :
  has_sign sx (binary_round prec emax sx m e).
Proof.
  unfold binary_round.
  destruct (shl_align m e _) as [mz ez].
  apply binary_round_aux_sign. lia.
Qed.

Lemma has_sign_nonneg x : has_sign false x -> nonneg x.
Proof.
  unfold nonneg. destruct x as [s|s| |s m e]; simpl; intros H;
    try contradiction; subst; reflexivity.
Qed.

Lemma nonneg_cases x :
  nonneg x ->
  (exists s, x = S754_zero s) \/ x = S754_infinity false
  \/ exists m e, x = S754_finite false m e.
Proof.
  unfold nonneg. destruct x as [s|[]| |[] m e]; simpl; intros H;
    try discriminate; eauto.
Qed.

(** The sum of two non-negative numbers is non-negative. *)
Lemma add_nonneg x y : nonneg x -> nonneg y -> nonneg (F64.add x y).
Proof.
  intros Hx Hy.
  destruct (nonneg_cases x Hx) as [[sx ->]|[->|(mx & ex & ->)]];
    destruct (nonneg_cases y Hy) as [[sy ->]|[->|(my & ey & ->)]];
    try reflexivity.
  - destruct sx, sy; reflexivity.
  - apply has_sign_nonneg. unfold F64.add, SFadd. simpl cond_Zopp.
    unfold binary_normalize.
    destruct (_ + _) as [|p|p] eqn:E.
    + reflexivity.
    + apply binary_round_sign.
    + lia.
Qed.

(** The quotient of a non-negative finite number by a positive number
    is non-negative (it may overflow to +Inf). *)
Lemma div_nonneg x y :
  nonneg x -> F64.is_finite x = true -> F64.ltb F64.zero y = true ->
  nonneg (F64.div x y).
Proof.
  intros Hx Fx Hy.
  assert (Hy' : y = S754_infinity false \/ exists m e, y = S754_finite false m e).
  { destruct y as [s|[]| |[] m e]; try discriminate Hy; eauto. }
  destruct (nonneg_cases x Hx) as [[sx ->]|[->|(mx & ex & ->)]];
    try discriminate Fx;
    destruct Hy' as [->|(my & ey & ->)]; try reflexivity.
  apply has_sign_nonneg. unfold F64.div, SFdiv, SFdiv_core_binary.
  set (s := ex - ey - _).
  set (m' := match s with Z0 => Z.pos mx | Z.pos _ => Z.shiftl (Z.pos mx) s
                     | Z.neg _ => 0 end).
  assert (Hm' : 0 <= m').
  { subst m'. destruct s; try lia. apply Z.shiftl_nonneg. lia. }
  pose proof (Z.div_pos m' (Z.pos my) Hm' ltac:(lia)) as Hq.
  unfold Z.div in Hq.
  destruct (Z.div_eucl m' (Z.pos my)) as [q r]. simpl in Hq.
  simpl xorb. apply binary_round_aux_sign. exact Hq.
Qed.

(** Dividing by a zero never gives a finite number. *)
Lemma div_by_zero x y :
  F64.is_zero y = true -> F64.is_finite (F64.div x y) = false.
Proof.
  destruct y; try discriminate. intros _.
  destruct x; reflexivity.
Qed.


(** *** No overflow below one *)

Lemma digits2_pos_bounds p :
  2 ^ (Z.pos (digits2_pos p) - 1) <= Z.pos p < 2 ^ Z.pos (digits2_pos p).
Proof.
  induction p as [p IH|p IH|]; simpl digits2_pos.
  - rewrite Pos2Z.inj_succ.
    replace (Z.succ (Z.pos (digits2_pos p)) - 1)
      with (Z.succ (Z.pos (digits2_pos p) - 1)) by lia.
    rewrite !Z.pow_succ_r by lia. lia.
  - rewrite Pos2Z.inj_succ.
    replace (Z.succ (Z.pos (digits2_pos p)) - 1)
      with (Z.succ (Z.pos (digits2_pos p) - 1)) by lia.
    rewrite !Z.pow_succ_r by lia. lia.
  - simpl. lia.
Qed.

Lemma Zdigits2_le m k : 0 <= k -> 0 <= m < 2 ^ k -> Zdigits2 m <= k.
Proof.
  intros Hk [Hm Hlt]. destruct m as [|p|p]; simpl; try lia.
  pose proof (digits2_pos_bounds p) as [Hlo _].
  assert (H : 2 ^ (Z.pos (digits2_pos p) - 1) < 2 ^ k) by lia.
  apply Z.pow_lt_mono_r_iff in H; lia.
Qed.

Lemma shr_1_half mrs :
  0 <= shr_m mrs ->
  0 <= shr_m (shr_1 mrs) /\ 2 * shr_m (shr_1 mrs) <= shr_m mrs.
Proof.
  destruct mrs as [m r s]; simpl.
  destruct m as [|[p|p|]|p]; simpl; lia.
Qed.

Lemma iter_shr_1_bound p : forall mrs,
  0 <= shr_m mrs ->
  0 <= shr_m (SpecFloat.iter_pos shr_1 p mrs)
  /\ 2 ^ Z.pos p * shr_m (SpecFloat.iter_pos shr_1 p mrs) <= shr_m mrs.
Proof.
  induction p as [p IH|p IH|]; intros mrs H; simpl SpecFloat.iter_pos.
  - destruct (shr_1_half mrs H) as [H0 H1].
    destruct (IH _ H0) as [H2 H3]. destruct (IH _ H2) as [H4 H5].
    split; [exact H4|].
    rewrite (Pos2Z.inj_xI p). rewrite Z.pow_add_r, Z.pow_mul_r by lia.
    change (2 ^ 2) with 4. change (2 ^ 1) with 2.
    assert (Hp : 0 < 2 ^ Z.pos p) by (apply Z.pow_pos_nonneg; lia).
    set (a := 2 ^ Z.pos p) in *. 
    replace (4 ^ Z.pos p) with (a * a).
    2:{ subst a. change 4 with (2 * 2). rewrite Z.pow_mul_l. reflexivity. }
    nia.
  - destruct (IH _ H) as [H2 H3]. destruct (IH _ H2) as [H4 H5].
    split; [exact H4|].
    rewrite (Pos2Z.inj_xO p). rewrite Z.pow_mul_r by lia.
    change (2 ^ 2) with 4.
    assert (Hp : 0 < 2 ^ Z.pos p) by (apply Z.pow_pos_nonneg; lia).
    set (a := 2 ^ Z.pos p) in *. 
    replace (4 ^ Z.pos p) with (a * a).
    2:{ subst a. change 4 with (2 * 2). rewrite Z.pow_mul_l. reflexivity. }
    nia.
  - destruct (shr_1_half mrs H) as [H0 H1]. split; [exact H0|].
    change (2 ^ 1) with 2. lia.
Qed.

Lemma fexp_small t : t <= 2 -> fexp prec emax t <= 0.
Proof. unfold fexp, emin, prec, emax. lia. Qed.

Lemma shr_fexp_bound m e l :
  e <= 0 -> 0 <= m <= 2 ^ (- e) + 1 ->
  snd (shr_fexp prec emax m e l) <= 0
  /\ 0 <= shr_m (fst (shr_fexp prec emax m e l))
  /\ (m <= 2 ^ (- e) ->
      shr_m (fst (shr_fexp prec emax m e l))
      <= 2 ^ (- snd (shr_fexp prec emax m e l))).
Proof.
  intros He [Hm0 Hm]. unfold shr_fexp, shr.
  assert (Hpow : 0 < 2 ^ (- e)) by (apply Z.pow_pos_nonneg; lia).
  assert (Hd : Zdigits2 m + e <= 2).
  { assert (Zdigits2 m <= - e + 2); [|lia].
    apply Zdigits2_le; [lia|]. split; [exact Hm0|].
    rewrite Z.pow_add_r by lia. change (2 ^ 2) with 4. lia. }
  pose proof (fexp_small _ Hd) as Hf.
  destruct (fexp prec emax (Zdigits2 m + e) - e) as [|p|p] eqn:En; simpl;
    rewrite ?shr_record_of_loc_m; try (repeat split; lia).
  destruct (iter_shr_1_bound p (shr_record_of_loc m l)) as [H0 H1];
    [rewrite shr_record_of_loc_m; exact Hm0|].
  rewrite shr_record_of_loc_m in H1.
  repeat split; try lia.
  intros Hle.
  assert (Hp : 0 < 2 ^ Z.pos p) by (apply Z.pow_pos_nonneg; lia).
  assert (Hsplit : 2 ^ (- e) = 2 ^ (- (e + Z.pos p)) * 2 ^ Z.pos p).
  { rewrite <- Z.pow_add_r by lia. f_equal. lia. }
  set (m' := shr_m (SpecFloat.iter_pos shr_1 p (shr_record_of_loc m l))) in *.
  set (a := 2 ^ Z.pos p) in *. set (b := 2 ^ (- (e + Z.pos p))) in *.
  nia.
Qed.

Lemma round_nearest_even_le m l : 0 <= m -> 0 <= round_nearest_even m l <= m + 1.
Proof.
  intros H. unfold round_nearest_even.
  destruct l as [|[]]; try destruct (Z.even m); lia.
Qed.

Lemma binary_round_aux_finite sx m e l :
  e <= 0 -> 0 <= m <= 2 ^ (- e) ->
  F64.is_finite (binary_round_aux prec emax sx m e l) = true.
Proof.
  intros He [Hm0 Hm]. unfold binary_round_aux.
  destruct (shr_fexp_bound m e l He ltac:(lia)) as (He' & Hm'0 & Hm').
  specialize (Hm' Hm).
  destruct (shr_fexp prec emax m e l) as [mrs' e']. simpl in He', Hm'0, Hm'.
  pose proof (round_nearest_even_le (shr_m mrs') (loc_of_shr_record mrs') Hm'0)
    as [Hr0 Hr].
  destruct (shr_fexp_bound
              (round_nearest_even (shr_m mrs') (loc_of_shr_record mrs'))
              e' loc_Exact He' ltac:(lia)) as (He'' & Hm''0 & _).
  destruct (shr_fexp prec emax _ e' loc_Exact) as [mrs'' e'']. simpl in He'', Hm''0.
  destruct (shr_m mrs'') as [|q|q]; try reflexivity; try lia.
  assert (E : (e'' <=? emax - prec) = true)
    by (apply Z.leb_le; unfold emax, prec; lia).
  rewrite E. reflexivity.
Qed.

(** Two valid positive numbers in the order [x <= y]: the exponents are in
    that order and so are the mantissas once aligned. *)
Lemma valid_le_mantissas mx ex my ey :
  valid_binary prec emax (S754_finite false mx ex) = true ->
  valid_binary prec emax (S754_finite false my ey) = true ->
  SFleb (S754_finite false mx ex) (S754_finite false my ey) = true ->
  ex <= ey /\ Z.pos mx <= Z.pos my * 2 ^ (ey - ex).
Proof.
  unfold valid_binary, bounded, canonical_mantissa, fexp, emin, prec, emax,
    SFleb, SFcompare.
  intros Hx Hy Hle.
  apply andb_true_iff in Hx as [Hx _]. apply andb_true_iff in Hy as [Hy _].
  apply Z.eqb_eq in Hx, Hy.
  pose proof (digits2_pos_bounds mx) as [Hx1 Hx2].
  pose proof (digits2_pos_bounds my) as [Hy1 Hy2].
  destruct (Z.compare_spec ex ey) as [E|E|E].
  - subst ey. split; [lia|]. rewrite Z.sub_diag. change (2 ^ 0) with 1.
    destruct (Pos.compare_cont Eq mx my) eqn:C; try discriminate.
    + apply Pos.compare_eq in C. subst. clear. lia.
    + assert (Hlt : Z.pos mx < Z.pos my) by exact C.
      clear - Hlt. lia.
  - split; [lia|].
    assert (Hdy : Z.pos (digits2_pos my) = 53) by lia.
    assert (Hdx : Z.pos (digits2_pos mx) <= 53) by lia.
    rewrite Hdy in Hy1. change (2 ^ (53 - 1)) with 4503599627370496 in Hy1.
    assert (Hx3 : Z.pos mx < 2 ^ 53).
    { eapply Z.lt_le_trans; [exact Hx2|]. apply Z.pow_le_mono_r; lia. }
    change (2 ^ 53) with 9007199254740992 in Hx3.
    assert (Hp : 2 ^ 1 <= 2 ^ (ey - ex)) by (apply Z.pow_le_mono_r; lia).
    change (2 ^ 1) with 2 in Hp. nia.
  - discriminate.
Qed.

Lemma SFdiv_le_finite mx ex my ey :
  valid_binary prec emax (S754_finite false mx ex) = true ->
  valid_binary prec emax (S754_finite false my ey) = true ->
  SFleb (S754_finite false mx ex) (S754_finite false my ey) = true ->
  F64.is_finite
    (SFdiv prec emax (S754_finite false mx ex) (S754_finite false my ey))
  = true.
Proof.
  intros Hx Hy Hle.
  destruct (valid_le_mantissas mx ex my ey Hx Hy Hle) as [He Hm].
  clear Hx Hy Hle.
  unfold SFdiv, SFdiv_core_binary.
  set (ez := Z.min _ (ex - ey)).
  assert (Hez : ez <= ex - ey) by (subst ez; apply Z.le_min_r).
  set (s := ex - ey - ez).
  assert (Hs : 0 <= s) by (subst s; lia).
  set (m' := match s with Z0 => Z.pos mx | Z.pos _ => Z.shiftl (Z.pos mx) s
                     | Z.neg _ => 0 end).
  assert (Hm' : m' = Z.pos mx * 2 ^ s).
  { subst m'. destruct s as [|p|p] eqn:Es; try lia.
    apply Z.shiftl_mul_pow2. lia. }
  assert (Hq : 0 <= m' / Z.pos my <= 2 ^ (- ez)).
  { assert (Hps : 0 < 2 ^ s) by (apply Z.pow_pos_nonneg; lia).
    split.
    - apply Z.div_pos; [rewrite Hm'|]; lia.
    - apply Z.div_le_upper_bound; [lia|].
      rewrite Hm'.
      replace (- ez) with ((ey - ex) + s) by (subst s; lia).
      rewrite Z.pow_add_r by lia.
      set (a := 2 ^ (ey - ex)) in *. set (b := 2 ^ s) in *. nia. }
  unfold Z.div in Hq.
  destruct (Z.div_eucl m' (Z.pos my)) as [q r]. simpl in Hq.
  apply binary_round_aux_finite; lia.
Qed.

(** The quotient of a finite [x] by [y], with [0 <= x <= y] and [0 < y],
    is finite: it cannot overflow. *)
Lemma div_le_finite x y :
  valid_binary prec emax x = true -> valid_binary prec emax y = true ->
  nonneg x -> F64.is_finite x = true ->
  F64.ltb F64.zero y = true -> F64.leb x y = true ->
  F64.is_finite (F64.div x y) = true.
Proof.
  intros Vx Vy Hx Fx Hy Hle.
  assert (Hy' : y = S754_infinity false \/ exists m e, y = S754_finite false m e).
  { destruct y as [s|[]| |[] m e]; try discriminate Hy; eauto. }
  destruct (nonneg_cases x Hx) as [[sx ->]|[->|(mx & ex & ->)]];
    try discriminate Fx;
    destruct Hy' as [->|(my & ey & ->)]; try reflexivity.
  apply SFdiv_le_finite; assumption.
Qed.

End Rounding.

(** ** Loops *)

Section Loops.

Context {A St : Type}.
Implicit Types (xs : list A) (body : St -> A -> option St).

Lemma for_range_app xs ys body st :
  for_range (xs ++ ys) body st
  = for_range xs body st ≫= for_range ys body.
Proof.
  revert st. induction xs as [|x xs IH]; intros st; simpl; [reflexivity|].
  destruct (body st x) as [st'|]; [apply IH | reflexivity].
Qed.

(** A turn that panics in every state makes the whole loop panic. *)
Lemma for_range_panic xs body x :
  x ∈ xs -> (forall st, body st x = None) ->
  forall st, for_range xs body st = None.
Proof.
  intros Hin Hx. induction xs as [|y xs IH]; intros st.
  - inversion Hin.
  - simpl. apply elem_of_cons in Hin as [->|Hin].
    + rewrite Hx. reflexivity.
    + destruct (body st y); [apply IH, Hin | reflexivity].
Qed.

(** A property kept by every turn holds when the loop ends. *)
Lemma for_range_invariant (P : St -> Prop) xs body :
  (forall st x st', x ∈ xs -> P st -> body st x = Some st' -> P st') ->
  forall st st', P st -> for_range xs body st = Some st' -> P st'.
Proof.
  induction xs as [|x xs IH]; intros Hbody st st' HP Hrun; simpl in Hrun.
  - congruence.
  - destruct (body st x) as [st1|] eqn:E; [|discriminate].
    apply (IH (fun st0 y st1 Hy => Hbody st0 y st1 (list_elem_of_further _ _ _ Hy))
             st1 st').
    + apply (Hbody st x st1); [left | exact HP | exact E].
    + exact Hrun.
Qed.

End Loops.

(** ** Facts about [Split], [Trim] and [Fields] *)

Section StringFacts.

Import Strings.

Lemma append_nil_l (s : string) : EmptyString ++ s = s.
Proof. reflexivity. Qed.

Lemma append_cons a (s t : string) : String a s ++ t = String a (s ++ t).
Proof. reflexivity. Qed.

Lemma append_nil_r (s : string) : s ++ EmptyString = s.
Proof.
  induction s as [|a s IH]; [reflexivity|].
  rewrite append_cons, IH. reflexivity.
Qed.

Lemma append_assoc (s t u : string) : (s ++ t) ++ u = s ++ (t ++ u).
Proof.
  induction s as [|a s IH]; [reflexivity|].
  rewrite !append_cons, IH. reflexivity.
Qed.

Lemma split_scan_nonempty sep s : forall skip, split_scan sep skip s <> [].
Proof.
  induction s as [|a s IH]; intros skip; cbn [split_scan].
  - discriminate.
  - destruct skip; [|apply IH].
    destruct (HasPrefix (String a s) sep); [discriminate|].
    destruct (split_scan sep 0 s); discriminate.
Qed.

(** [Split] always returns at least one piece: [values[0]] never panics. *)
Lemma Split_head s sep : exists piece pieces, Split s sep = piece :: pieces.
Proof.
  unfold Split. pose proof (split_scan_nonempty sep s O) as H.
  destruct (split_scan sep 0 s) as [|p ps]; [contradiction|eauto].
Qed.

Lemma Split_empty sep : Split EmptyString sep = [EmptyString].
Proof. reflexivity. Qed.

Lemma Split_at_sep c s : Split (String c s) (sep1 c) = EmptyString :: Split s (sep1 c).
Proof. unfold Split; simpl. rewrite Ascii.eqb_refl. reflexivity. Qed.

Lemma Split_skip a c s :
  a <> c ->
  Split (String a s) (sep1 c)
  = match Split s (sep1 c) with
    | piece :: pieces => String a piece :: pieces
    | [] => [String a EmptyString]
    end.
Proof.
  intros Hne. unfold Split; simpl.
  destruct (Ascii.eqb a c) eqn:E; [apply Ascii.eqb_eq in E; contradiction|].
  reflexivity.
Qed.

Lemma mem_cons_false c a s :
  mem c (String a s) = false -> a <> c /\ mem c s = false.
Proof.
  simpl. destruct (Ascii.eqb c a) eqn:E; [discriminate|].
  intros H. split; [|exact H].
  intros ->. rewrite Ascii.eqb_refl in E. discriminate.
Qed.

(** A prefix free of the separator stays in front of the first piece. *)
Lemma Split_prefix c a b :
  mem c a = false ->
  Split (a ++ b) (sep1 c)
  = match Split b (sep1 c) with
    | piece :: pieces => (a ++ piece) :: pieces
    | [] => [a]
    end.
Proof.
  induction a as [|x a IH]; intros H.
  - change (EmptyString ++ b) with b.
    destruct (Split_head b (sep1 c)) as (p & ps & ->). reflexivity.
  - apply mem_cons_false in H as [Hne H].
    change (String x a ++ b) with (String x (a ++ b)).
    rewrite Split_skip by exact Hne. rewrite IH by exact H.
    destruct (Split_head b (sep1 c)) as (p & ps & ->). reflexivity.
Qed.

Lemma Split_cut c a b :
  mem c a = false ->
  Split (a ++ String c b) (sep1 c) = a :: Split b (sep1 c).
Proof.
  intros H. rewrite Split_prefix by exact H. rewrite Split_at_sep.
  rewrite append_nil_r. reflexivity.
Qed.

Lemma Split_whole c a : mem c a = false -> Split a (sep1 c) = [a].
Proof.
  intros H. rewrite <- (append_nil_r a) at 1.
  rewrite Split_prefix by exact H. rewrite Split_empty.
  rewrite !append_nil_r. reflexivity.
Qed.

Lemma mem_drop c n s : mem c s = false -> mem c (drop n s) = false.
Proof.
  revert s. induction n as [|n IH]; intros s H; [exact H|].
  destruct s as [|a s]; [reflexivity|].
  apply mem_cons_false in H as [_ H]. simpl. apply IH, H.
Qed.

Lemma mem_TrimPrefix c s prefix :
  mem c s = false -> mem c (TrimPrefix s prefix) = false.
Proof.
  intros H. unfold TrimPrefix.
  destruct (HasPrefix s prefix); [apply mem_drop, H | exact H].
Qed.

End StringFacts.

(** ** What the parsers do with their lines *)

Section ParserFacts.

Import Strings.
Variable ParseFloat : string -> float64.

Lemma length_zero_iff (s : string) : (String.length s =? 0)%nat = true <-> s = EmptyString.
Proof. destruct s; simpl; split; intros H; congruence. Qed.

Lemma length_nonzero (s : string) :
  s <> EmptyString -> (String.length s =? 0)%nat = false.
Proof. destruct s; [congruence | reflexivity]. Qed.

(** A non-empty line can only come from non-empty text. *)
Lemma Split_line_text output sep line :
  line ∈ Split output sep -> line <> EmptyString -> output <> EmptyString.
Proof.
  intros Hin Hne ->. rewrite Split_empty in Hin.
  apply list_elem_of_singleton in Hin. contradiction.
Qed.

Lemma ParseTotalGPUs_lines output :
  output <> EmptyString ->
  ParseTotalGPUs ParseFloat output
  = for_range (Split output newline) (total_line ParseFloat) ∅.
Proof.
  intros H. unfold ParseTotalGPUs. rewrite length_nonzero by exact H.
  reflexivity.
Qed.

Lemma ParseAllocatedGPUs_lines output :
  output <> EmptyString ->
  ParseAllocatedGPUs ParseFloat output
  = for_range (Split output newline) (allocated_line ParseFloat) ∅.
Proof.
  intros H. unfold ParseAllocatedGPUs. rewrite length_nonzero by exact H.
  reflexivity.
Qed.

(** The second field is missing: [strings.Fields(line)[1]] panics. *)
Lemma total_line_few_fields gpu_map line :
  line <> EmptyString ->
  (length (Fields (Trim line quote)) < 2)%nat ->
  total_line ParseFloat gpu_map line = None.
Proof.
  intros Hne Hlen. unfold total_line. rewrite length_nonzero by exact Hne.
  assert (E : Fields (Trim line quote) !! 1%nat = None)
    by (apply lookup_ge_None; lia).
  rewrite E. reflexivity.
Qed.

(** The third colon segment is missing: [strings.Split(resource, ":")[2]]
    panics. *)
Lemma total_resource_few_segments gpu_map resource :
  HasPrefix resource "gpu:" = true ->
  (length (Split resource ":") < 3)%nat ->
  total_resource ParseFloat gpu_map resource = None.
Proof.
  intros Hp Hlen. unfold total_resource. rewrite Hp.
  assert (E : Split resource ":" !! 2%nat = None)
    by (apply lookup_ge_None; lia).
  rewrite E. reflexivity.
Qed.

(** The equals sign is missing: [values[1]] panics. *)
Lemma allocated_resource_no_equals gpu_map resource :
  HasPrefix resource "gres/gpu:" = true ->
  (length (Split (TrimPrefix resource "gres/gpu:") "=") < 2)%nat ->
  allocated_resource ParseFloat gpu_map resource = None.
Proof.
  intros Hp Hlen. unfold allocated_resource. rewrite Hp.
  destruct (Split_head (TrimPrefix resource "gres/gpu:") "=") as (p & ps & E).
  rewrite E in *. simpl in Hlen.
  destruct ps as [|text ps]; [reflexivity|].
  simpl in Hlen. lia.
Qed.

(** A well-formed typed token adds its parsed count to its type. *)
Lemma allocated_resource_typed gpu_map gpu_type text :
  mem "=" gpu_type = false -> mem "=" text = false ->
  allocated_resource ParseFloat gpu_map
    ("gres/gpu:" ++ gpu_type ++ "=" ++ text)
  = Some (add_to gpu_map gpu_type (ParseFloat text)).
Proof.
  intros Hty Htxt. unfold allocated_resource.
  change (HasPrefix ("gres/gpu:" ++ gpu_type ++ "=" ++ text) "gres/gpu:")
    with true.
  change (TrimPrefix ("gres/gpu:" ++ gpu_type ++ "=" ++ text) "gres/gpu:")
    with (gpu_type ++ String "=" text).
  change "=" with (sep1 "=").
  rewrite Split_cut by exact Hty. rewrite Split_whole by exact Htxt.
  reflexivity.
Qed.

End ParserFacts.

(** ** Text that is not a number *)


(** ** The count texts of an input *)

Example allocated_count_texts_sample :
  allocated_count_texts
    ("cpu=1,gres/gpu:a100=2,gres/gpu=2" ++ newline ++ "gres/gpu:k80=x")
  = ["2"; "x"].
Proof. reflexivity. Qed.

Example total_count_texts_sample :
  total_count_texts
    ("n1 gpu:v100:2(S:0),gpu:k80:1(S:1)" ++ newline ++ "n2 gpu:v100:2")
  = ["2"; "1"; "2"].
Proof. reflexivity. Qed.

Section NonNegative.

Variable ParseFloat : string -> float64.

Lemma values_nonneg_empty : values_nonneg ∅.
Proof. intros k v H. rewrite lookup_empty in H. discriminate. Qed.

Lemma get_nonneg gpu_map k : values_nonneg gpu_map -> nonneg (get gpu_map k).
Proof.
  intros H. unfold get. destruct (gpu_map !! k) as [v|] eqn:E; simpl.
  - apply (H k v E).
  - reflexivity.
Qed.

Lemma add_to_nonneg gpu_map k v :
  values_nonneg gpu_map -> nonneg v -> values_nonneg (add_to gpu_map k v).
Proof.
  intros Hm Hv j w. unfold add_to.
  destruct (decide (k = j)) as [->|Hne].
  - rewrite lookup_insert_eq. intros [= <-].
    apply add_nonneg; [apply get_nonneg, Hm | exact Hv].
  - rewrite lookup_insert_ne by exact Hne. apply Hm.
Qed.

Lemma allocated_line_nonneg output line gpu_map gpu_map' :
  (forall text, text ∈ allocated_count_texts output -> nonneg (ParseFloat text)) ->
  line ∈ Strings.Split output newline ->
  values_nonneg gpu_map ->
  allocated_line ParseFloat gpu_map line = Some gpu_map' ->
  values_nonneg gpu_map'.
Proof.
  intros Hpf Hline Hm. unfold allocated_line.
  destruct (String.length line =? 0)%nat eqn:Elen;
    [intros [= <-]; exact Hm|].
  apply for_range_invariant; [|exact Hm].
  intros st resource st' Hres Hst. unfold allocated_resource.
  destruct (Strings.HasPrefix resource "gres/gpu:") eqn:Ep;
    [|intros [= <-]; exact Hst].
  destruct (Strings.Split _ "=" !! 0%nat) as [gpu_type|]; [|discriminate].
  destruct (Strings.Split _ "=" !! 1%nat) as [text|] eqn:Etext; [|discriminate].
  simpl. intros [= <-]. apply add_to_nonneg; [exact Hst|].
  apply Hpf. unfold allocated_count_texts.
  apply list_elem_of_bind. exists line. split; [|exact Hline].
  rewrite Elen. apply list_elem_of_bind. exists resource.
  split; [|exact Hres]. rewrite Ep, Etext. left.
Qed.

Lemma total_line_nonneg output line gpu_map gpu_map' :
  (forall text, text ∈ total_count_texts output -> nonneg (ParseFloat text)) ->
  line ∈ Strings.Split output newline ->
  values_nonneg gpu_map ->
  total_line ParseFloat gpu_map line = Some gpu_map' ->
  values_nonneg gpu_map'.
Proof.
  intros Hpf Hline Hm. unfold total_line.
  destruct (String.length line =? 0)%nat eqn:Elen;
    [intros [= <-]; exact Hm|].
  destruct (Strings.Fields _ !! 1%nat) as [gres|] eqn:Egres; [|discriminate].
  simpl. apply for_range_invariant; [|exact Hm].
  intros st resource st' Hres Hst. unfold total_resource.
  destruct (Strings.HasPrefix resource "gpu:") eqn:Ep;
    [|intros [= <-]; exact Hst].
  destruct (Strings.Split resource ":" !! 2%nat) as [descriptor|] eqn:Ed;
    [|discriminate]. simpl.
  destruct (Strings.Split descriptor "(" !! 0%nat) as [text|] eqn:Etext;
    [|discriminate]. simpl.
  destruct (Strings.Split resource ":" !! 1%nat) as [type_gpu|];
    [|discriminate].
  simpl. intros [= <-]. apply add_to_nonneg; [exact Hst|].
  apply Hpf. unfold total_count_texts.
  apply list_elem_of_bind. exists line. split; [|exact Hline].
  rewrite Elen, Egres. apply list_elem_of_bind. exists resource.
  split; [|exact Hres]. rewrite Ep, Ed, Etext. left.
Qed.

End NonNegative.

(** ** Well-formed node lines *)

Section NodeLines.

Import Strings.

Lemma mem_app c a b : mem c (a ++ b) = mem c a || mem c b.
Proof.
  induction a as [|x a IH]; [reflexivity|].
  rewrite append_cons. simpl. destruct (Ascii.eqb c x); [reflexivity|exact IH].
Qed.

Lemma all_bytes_app p a b : all_bytes p (a ++ b) = all_bytes p a && all_bytes p b.
Proof.
  induction a as [|x a IH]; [reflexivity|].
  rewrite append_cons. simpl. rewrite IH. apply andb_assoc.
Qed.

Lemma all_bytes_mem p ch s :
  p ch = false -> all_bytes p s = true -> mem ch s = false.
Proof.
  intros Hch. induction s as [|x s IH]; simpl; [reflexivity|].
  intros H. apply andb_true_iff in H as [Hx Hs].
  destruct (Ascii.eqb ch x) eqn:E; [|apply IH, Hs].
  apply Ascii.eqb_eq in E. subst x. congruence.
Qed.

Lemma all_bytes_weaken (p q : ascii -> bool) s :
  (forall c, p c = true -> q c = true) ->
  all_bytes p s = true -> all_bytes q s = true.
Proof.
  intros Hpq. induction s as [|x s IH]; simpl; [reflexivity|].
  intros H. apply andb_true_iff in H as [Hx Hs].
  rewrite (Hpq x Hx), (IH Hs). reflexivity.
Qed.

Lemma plain_graphic c : plain c = true -> graphic c = true.
Proof. unfold plain. intros H. apply andb_true_iff in H as [H _]. exact H. Qed.

Lemma suffix_byte_graphic c : suffix_byte c = true -> graphic c = true.
Proof.
  unfold suffix_byte. intros H. apply andb_true_iff in H as [H _]. exact H.
Qed.

Lemma plain_suffix_byte c : plain c = true -> suffix_byte c = true.
Proof.
  unfold plain, suffix_byte. intros H. apply andb_true_iff in H as [Hg H].
  rewrite Hg. simpl.
  destruct (nat_of_ascii c =? 34)%nat; [discriminate|].
  destruct (nat_of_ascii c =? 40)%nat; [discriminate|].
  destruct (nat_of_ascii c =? 44)%nat; [discriminate|]. reflexivity.
Qed.

(** No white-space rune starts on a graphic byte. *)
Lemma space_width_graphic c s : graphic c = true -> space_width (String c s) = O.
Proof.
  unfold graphic, space_width. intros H.
  apply andb_true_iff in H as [Hlo Hhi].
  apply Nat.leb_le in Hlo, Hhi.
  assert (H1 : (nat_of_ascii c <=? 13)%nat = false) by (apply Nat.leb_gt; lia).
  assert (H2 : (nat_of_ascii c =? 32)%nat = false) by (apply Nat.eqb_neq; lia).
  assert (H3 : (nat_of_ascii c =? 194)%nat = false) by (apply Nat.eqb_neq; lia).
  assert (H4 : (nat_of_ascii c =? 225)%nat = false) by (apply Nat.eqb_neq; lia).
  assert (H5 : (nat_of_ascii c =? 226)%nat = false) by (apply Nat.eqb_neq; lia).
  assert (H6 : (nat_of_ascii c =? 227)%nat = false) by (apply Nat.eqb_neq; lia).
  rewrite H1, H2, H3, H4, H5, H6, andb_false_r. simpl.
  destruct s as [|c1 [|c2 s]]; reflexivity.
Qed.

Lemma fields_scan_graphic w rest :
  all_bytes graphic w = true ->
  fields_scan O (w ++ rest)
  = (w ++ fst (fields_scan O rest), snd (fields_scan O rest)).
Proof.
  induction w as [|c w IH]; intros H.
  - rewrite !append_nil_l. destruct (fields_scan O rest); reflexivity.
  - simpl in H. apply andb_true_iff in H as [Hc Hw].
    rewrite !append_cons. cbn [fields_scan].
    rewrite (space_width_graphic c _ Hc), (IH Hw). reflexivity.
Qed.

(** A line of two graphic words separated by one space has two fields. *)
Lemma Fields_two_words w1 w2 :
  all_bytes graphic w1 = true -> all_bytes graphic w2 = true ->
  w1 <> EmptyString -> w2 <> EmptyString ->
  Fields (w1 ++ String " " w2) = [w1; w2].
Proof.
  intros H1 H2 N1 N2. unfold Fields.
  assert (E2 : fields_scan O w2 = (w2, [])).
  { rewrite <- (append_nil_r w2) at 1.
    rewrite (fields_scan_graphic w2 _ H2). simpl.
    rewrite append_nil_r. reflexivity. }
  rewrite (fields_scan_graphic w1 _ H1).
  change (fields_scan O (String " " w2))
    with (let '(w, fs) := fields_scan O w2 in (EmptyString, push_field w fs)).
  rewrite E2. simpl. rewrite append_nil_r.
  destruct w1; [contradiction|]. destruct w2; [contradiction|]. reflexivity.
Qed.

Lemma TrimRight_no_quote s : mem "034" s = false -> TrimRight s quote = s.
Proof.
  induction s as [|c s IH]; [reflexivity|].
  intros H. apply mem_cons_false in H as [Hne H].
  cbn [TrimRight]. rewrite (IH H).
  destruct s; [|reflexivity].
  simpl. destruct (Ascii.eqb c "034") eqn:E; [|reflexivity].
  apply Ascii.eqb_eq in E. congruence.
Qed.

Lemma TrimLeft_no_quote s : mem "034" s = false -> TrimLeft s quote = s.
Proof.
  destruct s as [|c s]; [reflexivity|].
  intros H. apply mem_cons_false in H as [Hne H].
  simpl. destruct (Ascii.eqb c "034") eqn:E; [|reflexivity].
  apply Ascii.eqb_eq in E. congruence.
Qed.

(** [Trim] leaves a line without quotes as it is. *)
Lemma Trim_no_quote s : mem "034" s = false -> Trim s quote = s.
Proof.
  intros H. unfold Trim. rewrite (TrimRight_no_quote s H).
  apply TrimLeft_no_quote, H.
Qed.

Lemma append_nonempty (a b : string) : a <> EmptyString -> a ++ b <> EmptyString.
Proof.
  destruct a; [contradiction|]. intros _. rewrite append_cons. discriminate.
Qed.

Lemma join_lines_nonempty line lines :
  line <> EmptyString -> join_lines (line :: lines) <> EmptyString.
Proof.
  intros H. destruct lines; [exact H|].
  cbn [join_lines]. apply append_nonempty, H.
Qed.

Lemma Split_join_lines lines :
  lines <> [] ->
  Forall (fun line => mem "010" line = false) lines ->
  Split (join_lines lines) newline = lines.
Proof.
  induction lines as [|line lines IH]; [congruence|].
  intros _ H. apply Forall_cons in H as [Hline Hrest].
  destruct lines as [|line' lines].
  - apply (Split_whole "010"), Hline.
  - change (join_lines (line :: line' :: lines))
      with (line ++ String "010" (join_lines (line' :: lines))).
    change newline with (sep1 "010").
    rewrite Split_cut by exact Hline. f_equal.
    apply IH; [discriminate | exact Hrest].
Qed.

Lemma Split_lines_text lines (final_newline : bool) :
  lines <> [] ->
  Forall (fun line => mem "010" line = false) lines ->
  Split (join_lines lines ++ (if final_newline then newline else EmptyString))
    newline
  = (lines ++ (if final_newline then [EmptyString] else []))%list.
Proof.
  induction lines as [|line lines IH]; [congruence|].
  intros _ H. apply Forall_cons in H as [Hline Hrest].
  destruct lines as [|line' lines].
  - cbn [join_lines app]. destruct final_newline.
    + apply (Split_cut "010" line EmptyString Hline).
    + rewrite append_nil_r. apply (Split_whole "010" line Hline).
  - change (join_lines (line :: line' :: lines))
      with (line ++ String "010" (join_lines (line' :: lines))).
    rewrite append_assoc, append_cons.
    change (Split ?t newline) with (Split t (sep1 "010")).
    rewrite (Split_cut "010" line _ Hline).
    change (sep1 "010") with newline. rewrite IH by (discriminate || exact Hrest).
    reflexivity.
Qed.

Lemma TrimRight_closing_quote s :
  mem "034" s = false -> TrimRight (s ++ quote) quote = s.
Proof.
  induction s as [|c s IH]; [reflexivity|].
  intros H. apply mem_cons_false in H as [Hne H].
  rewrite append_cons. cbn [TrimRight]. rewrite (IH H).
  destruct s; [|reflexivity].
  simpl. destruct (Ascii.eqb c "034") eqn:E; [|reflexivity].
  apply Ascii.eqb_eq in E. congruence.
Qed.

(** [Trim] takes the quotes off a quoted line. *)
Lemma Trim_wrap quoted s : mem "034" s = false -> Trim (wrap quoted s) quote = s.
Proof.
  intros H. destruct quoted; [|apply Trim_no_quote, H].
  unfold wrap, Trim.
  change (quote ++ s ++ quote) with (String "034" (s ++ quote)).
  cbn [TrimRight]. rewrite (TrimRight_closing_quote s H).
  destruct s as [|c s]; [reflexivity|].
  change (TrimLeft (String "034" (String c s)) quote)
    with (TrimLeft (String c s) quote).
  apply TrimLeft_no_quote, H.
Qed.

Lemma mem_wrap ch quoted s :
  Ascii.eqb ch "034" = false -> mem ch s = false -> mem ch (wrap quoted s) = false.
Proof.
  intros Hq H. destruct quoted; [|exact H].
  unfold wrap. change (quote ++ s ++ quote) with (String "034" (s ++ quote)).
  cbn [mem]. rewrite Hq, mem_app, H. simpl. rewrite Hq. reflexivity.
Qed.

Lemma wrap_nonempty quoted s : s <> EmptyString -> wrap quoted s <> EmptyString.
Proof. destruct quoted; [discriminate | trivial]. Qed.

End NodeLines.

Section Accumulation.

Import Strings.
Variable ParseFloat : string -> float64.

Lemma node_line_bytes (node gpu_type count suffix : string) :
  all_bytes plain gpu_type = true -> all_bytes plain count = true ->
  all_bytes suffix_byte suffix = true ->
  all_bytes suffix_byte ("gpu:" ++ gpu_type ++ ":" ++ count ++ "(" ++ suffix ++ ")")
  = true.
Proof.
  intros Ht Hc Hs.
  apply (all_bytes_weaken _ _ _ plain_suffix_byte) in Ht, Hc.
  rewrite !all_bytes_app, Ht, Hc, Hs. reflexivity.
Qed.

Lemma node_line_no_byte ch (node gpu_type count suffix : string) :
  suffix_byte ch = false -> Ascii.eqb ch " " = false ->
  all_bytes plain node = true ->
  all_bytes plain gpu_type = true -> all_bytes plain count = true ->
  all_bytes suffix_byte suffix = true ->
  mem ch (node_line node gpu_type count suffix) = false.
Proof.
  intros Hch Hsp Hn Ht Hc Hs.
  pose proof (node_line_bytes node gpu_type count suffix Ht Hc Hs) as Hg.
  apply (all_bytes_weaken _ _ _ plain_suffix_byte) in Hn.
  change (node_line node gpu_type count suffix)
    with (node ++ String " " ("gpu:" ++ gpu_type ++ ":" ++ count ++ "(" ++ suffix ++ ")")).
  rewrite mem_app, (all_bytes_mem _ _ _ Hch Hn). cbn [mem orb].
  rewrite Hsp. apply (all_bytes_mem _ _ _ Hch Hg).
Qed.

(** A well-formed node line adds the parsed count to the total of its type. *)
Lemma total_line_node gpu_map (node gpu_type count suffix : string) :
  node <> EmptyString ->
  all_bytes plain node = true ->
  all_bytes plain gpu_type = true -> all_bytes plain count = true ->
  all_bytes suffix_byte suffix = true ->
  total_line ParseFloat gpu_map (node_line node gpu_type count suffix)
  = Some (add_to gpu_map gpu_type (ParseFloat count)).
Proof.
  intros Hne Hn Ht Hc Hs.
  pose proof (node_line_bytes node gpu_type count suffix Ht Hc Hs) as Hg.
  pose proof (node_line_no_byte "034" node gpu_type count suffix
                eq_refl eq_refl Hn Ht Hc Hs) as Hq.
  unfold total_line.
  rewrite length_nonzero, (Trim_no_quote _ Hq);
    [|unfold node_line; destruct node; [contradiction|discriminate]].
  change (node_line node gpu_type count suffix)
    with (node ++ String " " ("gpu:" ++ gpu_type ++ ":" ++ count ++ "(" ++ suffix ++ ")")).
  set (gres := "gpu:" ++ gpu_type ++ ":" ++ count ++ "(" ++ suffix ++ ")") in *.
  rewrite Fields_two_words;
    [ | apply (all_bytes_weaken _ _ _ plain_graphic), Hn
      | apply (all_bytes_weaken _ _ _ suffix_byte_graphic), Hg
      | exact Hne | discriminate ].
  cbn [lookup list_lookup mbind option_bind].
  change (Split gres ",") with (Split gres (sep1 ",")).
  rewrite (Split_whole "," gres) by (apply (all_bytes_mem suffix_byte); [reflexivity|exact Hg]).
  cbn [for_range].
  assert (Hres : total_resource ParseFloat gpu_map gres
                 = Some (add_to gpu_map gpu_type (ParseFloat count))).
  { unfold total_resource.
    change (HasPrefix gres "gpu:") with true. cbv iota.
    assert (Hcolon : exists h t,
               Split gres ":" = "gpu" :: gpu_type :: (count ++ String "(" h) :: t).
    { destruct (Split_head (suffix ++ ")") ":") as (h & t & E).
      exists h, t. subst gres.
      change ("gpu:" ++ gpu_type ++ ":" ++ count ++ "(" ++ suffix ++ ")")
        with ("gpu" ++ String ":" (gpu_type ++ String ":"
                (count ++ (String "(" EmptyString ++ (suffix ++ ")"))))).
      rewrite (Split_cut ":" "gpu") by reflexivity.
      rewrite (Split_cut ":" gpu_type)
        by (apply (all_bytes_mem plain); [reflexivity|exact Ht]).
      rewrite (Split_prefix ":" count)
        by (apply (all_bytes_mem plain); [reflexivity|exact Hc]).
      rewrite (Split_prefix ":" (String "(" EmptyString)) by reflexivity.
      change (Split (suffix ++ ")") (sep1 ":")) with (Split (suffix ++ ")") ":").
      rewrite E. reflexivity. }
    destruct Hcolon as (h & t & ->).
    cbn [lookup list_lookup mbind option_bind].
    rewrite (Split_cut "(" count)
      by (apply (all_bytes_mem plain); [reflexivity|exact Hc]).
    reflexivity. }
  rewrite Hres. reflexivity.
Qed.

(** The quotes around a line make no difference. *)
Lemma total_line_wrap gpu_map quoted line :
  line <> EmptyString -> mem "034" line = false ->
  total_line ParseFloat gpu_map (wrap quoted line)
  = total_line ParseFloat gpu_map line.
Proof.
  intros Hne Hq. unfold total_line.
  rewrite (length_nonzero line Hne).
  rewrite (length_nonzero _ (wrap_nonempty quoted line Hne)).
  rewrite (Trim_wrap quoted line Hq), (Trim_no_quote line Hq). reflexivity.
Qed.

Lemma report_lines_run quoted gpu_type reports : forall gpu_map,
  all_bytes plain gpu_type = true ->
  Forall well_formed_report reports ->
  for_range (map (wrap quoted) (map (report_line gpu_type) reports))
    (total_line ParseFloat) gpu_map
  = Some (foldl (fun m r => add_to m gpu_type (ParseFloat (node_count r)))
            gpu_map reports).
Proof.
  induction reports as [|r reports IH]; intros gpu_map Ht Hall; [reflexivity|].
  apply Forall_cons in Hall as [(Hne & Hn & Hc & Hs) Hall].
  cbn [map for_range foldl].
  rewrite total_line_wrap;
    [ | apply append_nonempty, Hne
      | apply node_line_no_byte; (reflexivity || assumption) ].
  unfold report_line at 1.
  rewrite total_line_node by assumption.
  apply IH; assumption.
Qed.

Lemma add_to_singleton_fold gpu_type reports : forall a,
  foldl (fun m r => add_to m gpu_type (ParseFloat (node_count r)))
    {[ gpu_type := a ]} reports
  = {[ gpu_type := foldl (fun acc r => F64.add acc (ParseFloat (node_count r)))
                     a reports ]}.
Proof.
  induction reports as [|r reports IH]; intros a; [reflexivity|].
  cbn [foldl]. rewrite <- IH. f_equal.
  unfold add_to, get. rewrite lookup_singleton_eq. simpl.
  apply insert_singleton_eq.
Qed.

End Accumulation.

(** ** The count texts are all that the parsers convert *)

Section CountTexts.

Variables ParseFloat ParseFloat' : string -> float64.

Lemma for_range_ext {A St : Type} (xs : list A) (body body' : St -> A -> option St) :
  (forall st x, x ∈ xs -> body st x = body' st x) ->
  forall st, for_range xs body st = for_range xs body' st.
Proof.
  induction xs as [|x xs IH]; intros H st; [reflexivity|].
  simpl. rewrite <- (H st x) by left.
  destruct (body st x); [|reflexivity].
  apply IH. intros st0 y Hy. apply H. right. exact Hy.
Qed.

(** Two conversions that agree on the count texts of the squeue output
    give the same allocation map. *)
Lemma ParseAllocatedGPUs_count_texts output :
  (forall text, text ∈ allocated_count_texts output ->
                ParseFloat text = ParseFloat' text) ->
  ParseAllocatedGPUs ParseFloat output = ParseAllocatedGPUs ParseFloat' output.
Proof.
  intros H. unfold ParseAllocatedGPUs.
  destruct (String.length output =? 0)%nat; [reflexivity|].
  apply for_range_ext. intros st line Hline. unfold allocated_line.
  destruct (String.length line =? 0)%nat eqn:Elen; [reflexivity|].
  apply for_range_ext. intros st' resource Hres. unfold allocated_resource.
  destruct (Strings.HasPrefix resource "gres/gpu:") eqn:Ep; [|reflexivity].
  destruct (Strings.Split _ "=" !! 0%nat) as [gpu_type|]; [|reflexivity].
  destruct (Strings.Split _ "=" !! 1%nat) as [text|] eqn:Etext; [|reflexivity].
  simpl. rewrite (H text); [reflexivity|].
  unfold allocated_count_texts.
  apply list_elem_of_bind. exists line. split; [|exact Hline].
  rewrite Elen. apply list_elem_of_bind. exists resource.
  split; [|exact Hres]. rewrite Ep, Etext. left.
Qed.

(** Two conversions that agree on the count texts of the sinfo output
    give the same inventory map. *)
Lemma ParseTotalGPUs_count_texts output :
  (forall text, text ∈ total_count_texts output ->
                ParseFloat text = ParseFloat' text) ->
  ParseTotalGPUs ParseFloat output = ParseTotalGPUs ParseFloat' output.
Proof.
  intros H. unfold ParseTotalGPUs.
  destruct (String.length output =? 0)%nat; [reflexivity|].
  apply for_range_ext. intros st line Hline. unfold total_line.
  destruct (String.length line =? 0)%nat eqn:Elen; [reflexivity|].
  destruct (Strings.Fields _ !! 1%nat) as [gres|] eqn:Egres; [|reflexivity].
  simpl. apply for_range_ext. intros st' resource Hres. unfold total_resource.
  destruct (Strings.HasPrefix resource "gpu:") eqn:Ep; [|reflexivity].
  destruct (Strings.Split resource ":" !! 2%nat) as [descriptor|] eqn:Ed;
    [|reflexivity]. simpl.
  destruct (Strings.Split descriptor "(" !! 0%nat) as [text|] eqn:Etext;
    [|reflexivity]. simpl.
  rewrite (H text); [reflexivity|].
  unfold total_count_texts.
  apply list_elem_of_bind. exists line. split; [|exact Hline].
  rewrite Elen, Egres. apply list_elem_of_bind. exists resource.
  split; [|exact Hres]. rewrite Ep, Ed, Etext. left.
Qed.

End CountTexts.

(** ** The sign of a converted text *)

Lemma of_decimal_sign neg m e10 : has_sign neg (Strconv.of_decimal neg m e10).
Proof.
  unfold Strconv.of_decimal. destruct m as [|p|p]; try reflexivity.
  destruct (0 <=? e10) eqn:Ee; [apply binary_round_sign|].
  apply Z.leb_gt in Ee.
  unfold SFdiv_core_binary.
  set (s := 0 - 0 - _).
  set (m' := match s with Z0 => Z.pos p | Z.pos _ => Z.shiftl (Z.pos p) s
                     | Z.neg _ => 0 end).
  assert (Hm' : 0 <= m').
  { subst m'. destruct s; try lia. apply Z.shiftl_nonneg. lia. }
  assert (Hd : 0 < 10 ^ (- e10)) by (apply Z.pow_pos_nonneg; lia).
  pose proof (Z.div_pos m' _ Hm' Hd) as Hq.
  unfold Z.div in Hq.
  destruct (Z.div_eucl m' (10 ^ (- e10))) as [q r]. simpl in Hq.
  apply binary_round_aux_sign. exact Hq.
Qed.

(** [Strconv.ParseFloat] gives a non-negative number for every text that
    neither starts with a minus sign nor spells NaN. *)
Lemma ParseFloat_unsigned text :
  fst (Strconv.read_sign text) = false ->
  Strconv.eq_fold text "nan" = false ->
  nonneg (Strconv.ParseFloat text).
Proof.
  intros Hsign Hnan. unfold Strconv.ParseFloat, Strconv.special, Strconv.readFloat.
  rewrite Hnan. destruct (Strconv.read_sign text) as [neg t]. simpl in Hsign.
  subst neg. destruct (_ || _); [reflexivity|].
  destruct (Strconv.read_mantissa t) as [[[m nfrac] r1]|]; [|reflexivity].
  destruct (Strconv.read_exponent r1) as [e|]; [|reflexivity].
  apply has_sign_nonneg, of_decimal_sign.
Qed.

(** * The properties of the specification *)

(** C1. Round trip on the fixed sample: the Allocation Parser on the line
    [gres/gpu:a100=2,cpu=1] gives a100 -> 2, the Inventory Parser on the
    line [node01 gpu:a100:4(S:0)] gives a100 -> 4, and aggregating them
    gives exactly one record, under the key a100, with alloc = 2,
    total = 4, idle = 2 and utilization = 0.5. *)
Theorem round_trip_sample :
  ParseAllocatedGPUs Strconv.ParseFloat sample_squeue
    = Some {[ "a100" := F64.of_Z 2 ]}
  /\ ParseTotalGPUs Strconv.ParseFloat sample_sinfo
    = Some {[ "a100" := F64.of_Z 4 ]}
  /\ ParseGPUsMetrics Strconv.ParseFloat sample_sinfo sample_squeue
    = Some {[ "a100" := {| alloc := F64.of_Z 2; idle := F64.of_Z 2;
                          total := F64.of_Z 4; utilization := half |} ]}.
Proof. repeat split; vm_compute; reflexivity. Qed.

(** C2. Aggregator contract: for every pair of maps and every key of the
    inventory map, the output has a record under that key whose alloc is
    the allocation map's entry (0 when the key is absent from it), whose
    total is the inventory map's value, whose idle is total - alloc and
    whose utilization is alloc / total, in binary64 arithmetic. *)
Theorem aggregator_contract (totals allocs : gmap string float64)
    (k : string) (t : float64) :
  totals !! k = Some t ->
  exists r,
    AggregateGPUs totals allocs !! k = Some r
    /\ alloc r = default F64.zero (allocs !! k)
    /\ (allocs !! k = None -> alloc r = F64.zero)
    /\ total r = t
    /\ idle r = F64.sub (total r) (alloc r)
    /\ utilization r = F64.div (alloc r) (total r).
Proof.
  intros Hk. exists (record_of totals allocs k).
  rewrite AggregateGPUs_lookup, Hk. unfold record_of, get. rewrite Hk. simpl.
  repeat split. intros ->. reflexivity.
Qed.

Lemma aggregator_contract_witness :
  exists r,
    AggregateGPUs {[ "a100" := F64.of_Z 4 ]} {[ "k80" := F64.of_Z 1 ]} !! "a100"
      = Some r
    /\ alloc r = F64.zero /\ total r = F64.of_Z 4
    /\ idle r = F64.of_Z 4 /\ utilization r = F64.zero.
Proof.
  destruct (aggregator_contract {[ "a100" := F64.of_Z 4 ]}
              {[ "k80" := F64.of_Z 1 ]} "a100" (F64.of_Z 4))
    as (r & Hr & Ha & _ & Ht & Hi & Hu).
  - vm_compute. reflexivity.
  - exists r. rewrite Hi, Hu, Ht, Ha.
    repeat split; try exact Hr; vm_compute; reflexivity.
Defined.

(** C3 fails on the code: [strconv.ParseFloat] accepts a sign and the text
    inf, so with a total of 4 the utilization is -0.5 for the count -2 and
    +Inf for the count inf. *)
Lemma utilization_claim_fails :
  (ParseGPUsMetrics Strconv.ParseFloat sample_sinfo "gres/gpu:a100=-2"
   = Some {[ "a100" := {| alloc := F64.of_Z (-2); idle := F64.of_Z 6;
                         total := F64.of_Z 4; utilization := minus_half |} ]}
   /\ ~ utilization_claim
          {| alloc := F64.of_Z (-2); idle := F64.of_Z 6;
             total := F64.of_Z 4; utilization := minus_half |})
  /\ (ParseGPUsMetrics Strconv.ParseFloat sample_sinfo "gres/gpu:a100=inf"
      = Some {[ "a100" := {| alloc := S754_infinity false;
                            idle := S754_infinity true;
                            total := F64.of_Z 4;
                            utilization := S754_infinity false |} ]}
      /\ ~ utilization_claim
             {| alloc := S754_infinity false; idle := S754_infinity true;
                total := F64.of_Z 4; utilization := S754_infinity false |}).
Proof.
  split; split; try (vm_compute; reflexivity).
  - intros [H _]. destruct (H eq_refl) as (_ & Hneg & _). discriminate Hneg.
  - intros [H _]. destruct (H eq_refl) as (Hfin & _). discriminate Hfin.
Qed.

(** C3, amended. For every emitted record the utilization is alloc / total
    in binary64 arithmetic; it is non-finite whenever the total is zero;
    it is non-negative (and not NaN) whenever the total is positive and
    alloc is finite and non-negative; and it is moreover finite whenever
    alloc and total are binary64 numbers with alloc <= total. *)
Theorem utilization_of_emitted_record (totals allocs : gmap string float64)
    (k : string) (r : GPUsMetrics) :
  AggregateGPUs totals allocs !! k = Some r ->
  utilization r = F64.div (alloc r) (total r)
  /\ (F64.is_zero (total r) = true -> F64.is_finite (utilization r) = false)
  /\ (F64.ltb F64.zero (total r) = true ->
      F64.is_finite (alloc r) = true -> nonneg (alloc r) ->
      nonneg (utilization r)
      /\ (F64.valid (alloc r) = true -> F64.valid (total r) = true ->
          F64.leb (alloc r) (total r) = true ->
          F64.is_finite (utilization r) = true)).
Proof.
  rewrite AggregateGPUs_lookup.
  destruct (totals !! k) as [t|]; [|discriminate].
  intros [= <-]. simpl. split; [reflexivity|]. split.
  - apply div_by_zero.
  - intros Ht Hfin Ha. split.
    + apply div_nonneg; assumption.
    + intros Va Vt Hle. apply div_le_finite; assumption.
Qed.

Lemma utilization_of_emitted_record_witness :
  (nonneg (F64.div (F64.of_Z 2) (F64.of_Z 4))
   /\ F64.is_finite (F64.div (F64.of_Z 2) (F64.of_Z 4)) = true)
  /\ F64.is_finite (F64.div (F64.of_Z 2) F64.zero) = false.
Proof.
  destruct (utilization_of_emitted_record
              {[ "a100" := F64.of_Z 4 ]} {[ "a100" := F64.of_Z 2 ]} "a100"
              {| alloc := F64.of_Z 2; idle := F64.of_Z 2;
                 total := F64.of_Z 4; utilization := half |})
    as (_ & _ & Hpos).
  { vm_compute. reflexivity. }
  destruct (utilization_of_emitted_record
              {[ "a100" := F64.zero ]} {[ "a100" := F64.of_Z 2 ]} "a100"
              {| alloc := F64.of_Z 2; idle := F64.of_Z (-2);
                 total := F64.zero; utilization := S754_infinity false |})
    as (_ & Hzero & _).
  { vm_compute. reflexivity. }
  split.
  - destruct Hpos as [Hnn Hfin]; try (vm_compute; reflexivity).
    split; [exact Hnn|]. apply Hfin; vm_compute; reflexivity.
  - apply Hzero. reflexivity.
Defined.

(** C4. A GPU type that the Allocation Parser reports and the Inventory
    Parser does not is absent from the aggregated output. *)
Theorem allocated_only_type_dropped (ParseFloat : string -> float64)
    (sinfo_output squeue_output : string)
    (totals allocs : gmap string float64) (k : string) :
  ParseTotalGPUs ParseFloat sinfo_output = Some totals ->
  ParseAllocatedGPUs ParseFloat squeue_output = Some allocs ->
  is_Some (allocs !! k) ->
  totals !! k = None ->
  exists types,
    ParseGPUsMetrics ParseFloat sinfo_output squeue_output = Some types
    /\ types !! k = None.
Proof.
  intros Ht Ha _ Hk. exists (AggregateGPUs totals allocs). split.
  - unfold ParseGPUsMetrics. rewrite Ht, Ha. reflexivity.
  - rewrite AggregateGPUs_lookup, Hk. reflexivity.
Qed.

Lemma allocated_only_type_dropped_witness :
  exists types,
    ParseGPUsMetrics Strconv.ParseFloat sample_sinfo "gres/gpu:k80=1"
      = Some types
    /\ types !! "k80" = None.
Proof.
  apply (allocated_only_type_dropped Strconv.ParseFloat sample_sinfo
           "gres/gpu:k80=1" {[ "a100" := F64.of_Z 4 ]}
           {[ "k80" := F64.of_Z 1 ]} "k80").
  - vm_compute. reflexivity.
  - vm_compute. reflexivity.
  - exists (F64.of_Z 1). vm_compute. reflexivity.
  - vm_compute. reflexivity.
Defined.

(** C5. On empty text either parser returns the empty map and does not
    panic, whatever the number conversion is. *)
Theorem empty_output_empty_map (ParseFloat : string -> float64) :
  ParseAllocatedGPUs ParseFloat "" = Some ∅
  /\ ParseTotalGPUs ParseFloat "" = Some ∅.
Proof. split; reflexivity. Qed.

Example two_nodes_text :
  command_text false false (map (report_line "v100") two_nodes)
  = "node01 gpu:v100:2(S:0)" ++ newline ++ "node02 gpu:v100:2(S:1)".
Proof. reflexivity. Qed.

Example two_nodes_quoted_text :
  command_text true true (map (report_line "v100") two_nodes)
  = quote ++ "node01 gpu:v100:2(S:0)" ++ quote ++ newline
    ++ quote ++ "node02 gpu:v100:2(S:1)" ++ quote ++ newline.
Proof. reflexivity. Qed.

(** C6. The Inventory Parser sums the contributions of a GPU type across
    node lines: on the text made of one well-formed line
    [<node> gpu:<type>:<count>(<suffix>)] per node (the lines bare or
    between quotes, with or without a final newline), it returns the map
    that gives the type the sum, taken from 0 in the order of the lines, of
    the parsed counts.  For two nodes with the count 2 each the sum is 4. *)
Theorem inventory_accumulates (ParseFloat : string -> float64)
    (quoted final_newline : bool)
    (gpu_type : string) (reports : list node_report) :
  reports <> [] ->
  all_bytes plain gpu_type = true ->
  Forall well_formed_report reports ->
  ParseTotalGPUs ParseFloat
    (command_text quoted final_newline (map (report_line gpu_type) reports))
  = Some {[ gpu_type :=
              foldl (fun acc r => F64.add acc (ParseFloat (node_count r)))
                F64.zero reports ]}.
Proof.
  intros Hne Ht Hall. unfold command_text.
  set (lines := map (wrap quoted) (map (report_line gpu_type) reports)).
  assert (Hlines : Forall (fun line => Strings.mem "010" line = false) lines).
  { subst lines. apply Forall_fmap, Forall_fmap.
    eapply Forall_impl; [exact Hall|].
    intros r (_ & Hn & Hc & Hs). simpl. apply mem_wrap; [reflexivity|].
    unfold report_line.
    apply node_line_no_byte; (reflexivity || assumption). }
  assert (Hsome : lines <> []).
  { subst lines. destruct reports; [congruence|discriminate]. }
  assert (Htext : join_lines lines
                  ++ (if final_newline then newline else EmptyString)
                  <> EmptyString).
  { apply append_nonempty. subst lines.
    destruct reports as [|r reports]; [congruence|].
    apply Forall_cons in Hall as [(Hname & _) _].
    cbn [map]. apply join_lines_nonempty, wrap_nonempty.
    unfold report_line, node_line. apply append_nonempty, Hname. }
  rewrite ParseTotalGPUs_lines by exact Htext.
  rewrite Split_lines_text by assumption.
  rewrite for_range_app. subst lines.
  rewrite report_lines_run by assumption. cbn [mbind option_bind].
  assert (Hlast : forall gpu_map,
             for_range (if final_newline then [EmptyString] else [])
               (total_line ParseFloat) gpu_map = Some gpu_map).
  { intros gpu_map. destruct final_newline; reflexivity. }
  rewrite Hlast.
  destruct reports as [|r reports]; [congruence|].
  cbn [foldl]. rewrite <- add_to_singleton_fold. f_equal.
Qed.

Lemma inventory_accumulates_witness :
  ParseTotalGPUs Strconv.ParseFloat
    ("node01 gpu:v100:2(S:0)" ++ newline ++ "node02 gpu:v100:2(S:1)")
  = Some {[ "v100" := F64.of_Z 4 ]}.
Proof.
  apply (inventory_accumulates Strconv.ParseFloat false false "v100" two_nodes).
  - discriminate.
  - reflexivity.
  - repeat constructor; discriminate.
Defined.



(** C8 fails on the code: [strconv.ParseFloat] accepts a sign, so a
    negative count text gives a negative value in either map. *)
Lemma parsed_values_can_be_negative :
  (ParseAllocatedGPUs Strconv.ParseFloat "gres/gpu:a100=-2"
   = Some {[ "a100" := F64.of_Z (-2) ]}
   /\ ~ values_nonneg {[ "a100" := F64.of_Z (-2) ]})
  /\ (ParseTotalGPUs Strconv.ParseFloat "node01 gpu:a100:-4(S:0)"
      = Some {[ "a100" := F64.of_Z (-4) ]}
      /\ ~ values_nonneg {[ "a100" := F64.of_Z (-4) ]}).
Proof.
  split; split; try (vm_compute; reflexivity).
  - intros H. specialize (H "a100" (F64.of_Z (-2)) (lookup_singleton_eq _ _)).
    discriminate H.
  - intros H. specialize (H "a100" (F64.of_Z (-4)) (lookup_singleton_eq _ _)).
    discriminate H.
Qed.

(** C8, amended. For every input text whose count texts all convert to
    non-negative numbers, every value of the map that the Allocation
    Parser returns is non-negative, and likewise for the Inventory
    Parser. *)
Theorem values_nonneg_of_counts (ParseFloat : string -> float64)
    (squeue_output sinfo_output : string) :
  (forall text, text ∈ allocated_count_texts squeue_output ->
                nonneg (ParseFloat text)) ->
  (forall text, text ∈ total_count_texts sinfo_output ->
                nonneg (ParseFloat text)) ->
  (forall allocs, ParseAllocatedGPUs ParseFloat squeue_output = Some allocs ->
                  values_nonneg allocs)
  /\ (forall totals, ParseTotalGPUs ParseFloat sinfo_output = Some totals ->
                     values_nonneg totals).
Proof.
  intros Ha Ht. split.
  - intros allocs. unfold ParseAllocatedGPUs.
    destruct (String.length squeue_output =? 0)%nat.
    + intros [= <-]. apply values_nonneg_empty.
    + apply for_range_invariant; [|apply values_nonneg_empty].
      intros st line st' Hline Hst.
      apply (allocated_line_nonneg ParseFloat squeue_output); assumption.
  - intros totals. unfold ParseTotalGPUs.
    destruct (String.length sinfo_output =? 0)%nat.
    + intros [= <-]. apply values_nonneg_empty.
    + apply for_range_invariant; [|apply values_nonneg_empty].
      intros st line st' Hline Hst.
      apply (total_line_nonneg ParseFloat sinfo_output); assumption.
Qed.

Lemma values_nonneg_of_counts_witness :
  values_nonneg {[ "a100" := F64.of_Z 2 ]}
  /\ values_nonneg {[ "a100" := F64.of_Z 4 ]}.
Proof.
  destruct (values_nonneg_of_counts Strconv.ParseFloat sample_squeue sample_sinfo)
    as [Ha Ht].
  - intros text Hin. vm_compute in Hin.
    apply list_elem_of_singleton in Hin. subst text. vm_compute. reflexivity.
  - intros text Hin. vm_compute in Hin.
    apply list_elem_of_singleton in Hin. subst text. vm_compute. reflexivity.
  - split; [apply Ha | apply Ht]; vm_compute; reflexivity.
Defined.

(** C9. The Inventory Parser is not total: it panics on any text that has
    a non-empty line with fewer than two fields (the access to the second
    field is out of range), or a line whose second field holds a comma
    token that starts with [gpu:] and has fewer than three colon segments
    (the access to the third segment is out of range). *)
Theorem inventory_parser_panics (ParseFloat : string -> float64)
    (output line : string) :
  line ∈ Strings.Split output newline ->
  line <> EmptyString ->
  (length (Strings.Fields (Strings.Trim line quote)) < 2)%nat
  \/ (exists gres resource,
        Strings.Fields (Strings.Trim line quote) !! 1%nat = Some gres
        /\ resource ∈ Strings.Split gres ","
        /\ Strings.HasPrefix resource "gpu:" = true
        /\ (length (Strings.Split resource ":") < 3)%nat) ->
  ParseTotalGPUs ParseFloat output = None.
Proof.
  intros Hin Hne Hbad.
  rewrite ParseTotalGPUs_lines by (eapply Split_line_text; eassumption).
  apply (for_range_panic _ _ line Hin). intros gpu_map.
  destruct Hbad as [Hfew|(gres & resource & Hgres & Hres & Hp & Hseg)].
  - apply total_line_few_fields; assumption.
  - unfold total_line. rewrite length_nonzero by exact Hne.
    rewrite Hgres. simpl.
    apply (for_range_panic _ _ resource Hres). intros st.
    apply total_resource_few_segments; assumption.
Qed.

Lemma inventory_parser_panics_witness :
  ParseTotalGPUs Strconv.ParseFloat "node01" = None
  /\ ParseTotalGPUs Strconv.ParseFloat "node01 gpu:a100" = None.
Proof.
  split.
  - apply (inventory_parser_panics Strconv.ParseFloat "node01" "node01").
    + vm_compute. left.
    + discriminate.
    + left. vm_compute. lia.
  - apply (inventory_parser_panics Strconv.ParseFloat
             "node01 gpu:a100" "node01 gpu:a100").
    + vm_compute. left.
    + discriminate.
    + right. exists "gpu:a100", "gpu:a100". repeat split.
      * vm_compute. left.
      * vm_compute. lia.
Defined.

(** C10. The Allocation Parser is not total: it panics on any text with a
    comma token that starts with [gres/gpu:] and holds no equals sign
    (the access to the second piece of the split on [=] is out of range). *)
Theorem allocation_parser_panics (ParseFloat : string -> float64)
    (output line resource : string) :
  line ∈ Strings.Split output newline ->
  line <> EmptyString ->
  resource ∈ Strings.Split (Strings.Trim line quote) "," ->
  Strings.HasPrefix resource "gres/gpu:" = true ->
  Strings.mem "=" resource = false ->
  ParseAllocatedGPUs ParseFloat output = None.
Proof.
  intros Hin Hne Hres Hp Heq.
  rewrite ParseAllocatedGPUs_lines by (eapply Split_line_text; eassumption).
  apply (for_range_panic _ _ line Hin). intros gpu_map.
  unfold allocated_line. rewrite length_nonzero by exact Hne.
  apply (for_range_panic _ _ resource Hres). intros st.
  apply allocated_resource_no_equals; [exact Hp|].
  rewrite (Split_whole "=").
  - simpl. lia.
  - apply mem_TrimPrefix. exact Heq.
Qed.

Lemma allocation_parser_panics_witness :
  ParseAllocatedGPUs Strconv.ParseFloat "cpu=1,gres/gpu:a100" = None.
Proof.
  apply (allocation_parser_panics Strconv.ParseFloat
           "cpu=1,gres/gpu:a100" "cpu=1,gres/gpu:a100" "gres/gpu:a100").
  - vm_compute. left.
  - discriminate.
  - vm_compute. right. left.
  - reflexivity.
  - reflexivity.
Defined.

(** * Further properties of the code *)

(** ** Lines *)

Section Lines.

Import Strings.

(** Splitting on a one-byte separator distributes over a concatenation at
    that separator. *)
Lemma Split_app c a b :
  Split (a ++ String c b) (sep1 c)
  = (Split a (sep1 c) ++ Split b (sep1 c))%list.
Proof.
  induction a as [|x a IH].
  - rewrite append_nil_l, Split_at_sep, Split_empty. reflexivity.
  - rewrite append_cons. destruct (Ascii.eqb_spec x c) as [->|Hne].
    + rewrite !Split_at_sep, IH. reflexivity.
    + rewrite !Split_skip by exact Hne. rewrite IH.
      destruct (Split_head a (sep1 c)) as (p & ps & ->). reflexivity.
Qed.

(** A piece of a split on [c] does not hold [c]. *)
Lemma Split_pieces c s piece :
  piece ∈ Split s (sep1 c) -> mem c piece = false.
Proof.
  revert piece. induction s as [|x s IH]; intros piece Hin.
  - rewrite Split_empty in Hin. apply list_elem_of_singleton in Hin.
    subst piece. reflexivity.
  - destruct (Ascii.eqb_spec x c) as [->|Hne].
    + rewrite Split_at_sep in Hin. apply elem_of_cons in Hin as [->|Hin];
        [reflexivity | apply IH, Hin].
    + rewrite Split_skip in Hin by exact Hne.
      destruct (Split_head s (sep1 c)) as (p & ps & E). rewrite E in *.
      apply elem_of_cons in Hin as [->|Hin].
      * simpl. destruct (Ascii.eqb_spec c x) as [->|_]; [contradiction|].
        apply IH. left.
      * apply IH. right. exact Hin.
Qed.

(** A text that holds the separator splits into at least two pieces. *)
Lemma Split_two c s :
  mem c s = true -> (2 <= length (Split s (sep1 c)))%nat.
Proof.
  induction s as [|x s IH]; [discriminate|].
  destruct (Ascii.eqb_spec x c) as [->|Hne]; intros H.
  - rewrite Split_at_sep. destruct (Split_head s (sep1 c)) as (p & ps & ->).
    simpl. lia.
  - rewrite Split_skip by exact Hne.
    simpl in H. destruct (Ascii.eqb_spec c x) as [->|_]; [contradiction|].
    specialize (IH H).
    destruct (Split_head s (sep1 c)) as (p & ps & E). rewrite E in *.
    exact IH.
Qed.

Lemma HasPrefix_split s prefix :
  HasPrefix s prefix = true -> s = prefix ++ drop (String.length prefix) s.
Proof.
  revert s. induction prefix as [|p prefix IH]; intros s H; [reflexivity|].
  destruct s as [|x s]; [discriminate|]. simpl in H.
  destruct (Ascii.eqb_spec x p) as [->|]; [|discriminate].
  rewrite append_cons. simpl. f_equal. apply IH, H.
Qed.

End Lines.

Section LoopFacts.

Context {A St : Type}.
Implicit Types (xs : list A) (body : St -> A -> option St).

(** A loop that panics has a turn that panics. *)
Lemma for_range_panic_inv xs body : forall st,
  for_range xs body st = None ->
  exists x st', x ∈ xs /\ body st' x = None.
Proof.
  induction xs as [|x xs IH]; intros st H; simpl in H; [discriminate|].
  destruct (body st x) as [st1|] eqn:E.
  - destruct (IH st1 H) as (y & st' & Hy & Hb).
    exists y, st'. split; [right; exact Hy | exact Hb].
  - exists x, st. split; [left | exact E].
Qed.

(** Turns that leave the state as it is leave it so after the loop. *)
Lemma for_range_skip xs body st :
  (forall x, x ∈ xs -> body st x = Some st) ->
  for_range xs body st = Some st.
Proof.
  induction xs as [|x xs IH]; intros H; [reflexivity|].
  simpl. rewrite (H x) by left. apply IH.
  intros y Hy. apply H. right. exact Hy.
Qed.

End LoopFacts.

(** ** The parsers, line by line *)

Section LineByLine.

Import Strings.
Variable ParseFloat : string -> float64.

(** The guard on the empty output returns what the loop would. *)
Lemma ParseAllocatedGPUs_as_loop text :
  ParseAllocatedGPUs ParseFloat text = allocated_lines ParseFloat ∅ text.
Proof.
  destruct text as [|c text]; [reflexivity|].
  apply ParseAllocatedGPUs_lines. discriminate.
Qed.

Lemma ParseTotalGPUs_as_loop text :
  ParseTotalGPUs ParseFloat text = total_lines ParseFloat ∅ text.
Proof.
  destruct text as [|c text]; [reflexivity|].
  apply ParseTotalGPUs_lines. discriminate.
Qed.

Lemma allocated_lines_app gpu_map a b :
  allocated_lines ParseFloat gpu_map (a ++ newline ++ b)
  = allocated_lines ParseFloat gpu_map a
    ≫= (fun m => allocated_lines ParseFloat m b).
Proof.
  unfold allocated_lines.
  change (a ++ newline ++ b) with (a ++ String "010" b).
  change (Split ?t newline) with (Split t (sep1 "010")).
  rewrite Split_app. apply for_range_app.
Qed.

Lemma total_lines_app gpu_map a b :
  total_lines ParseFloat gpu_map (a ++ newline ++ b)
  = total_lines ParseFloat gpu_map a
    ≫= (fun m => total_lines ParseFloat m b).
Proof.
  unfold total_lines.
  change (a ++ newline ++ b) with (a ++ String "010" b).
  change (Split ?t newline) with (Split t (sep1 "010")).
  rewrite Split_app. apply for_range_app.
Qed.

Lemma allocated_resource_panic gpu_map resource :
  allocated_resource ParseFloat gpu_map resource = None ->
  allocated_bad_token resource.
Proof.
  unfold allocated_resource, allocated_bad_token.
  destruct (HasPrefix resource "gres/gpu:") eqn:Ep; [|discriminate].
  intros H. split; [reflexivity|].
  destruct (mem "=" resource) eqn:Em; [exfalso|reflexivity].
  assert (Hd : resource = "gres/gpu:" ++ TrimPrefix resource "gres/gpu:").
  { unfold TrimPrefix. rewrite Ep. apply HasPrefix_split, Ep. }
  set (descriptor := TrimPrefix resource "gres/gpu:") in *.
  rewrite Hd, mem_app in Em.
  change (mem "=" "gres/gpu:") with false in Em. cbn [orb] in Em.
  apply (Split_two "=") in Em.
  change (Split ?t "=") with (Split t (sep1 "=")) in H.
  destruct (Split descriptor (sep1 "=")) as [|p [|q ps]];
    simpl in Em; try lia.
  discriminate H.
Qed.

Lemma allocated_line_panic gpu_map line :
  allocated_line ParseFloat gpu_map line = None ->
  exists resource,
    resource ∈ Split (Trim line quote) "," /\ allocated_bad_token resource.
Proof.
  unfold allocated_line.
  destruct (String.length line =? 0)%nat; [discriminate|].
  intros H. apply for_range_panic_inv in H as (resource & st & Hin & Hb).
  exists resource. split; [exact Hin|].
  apply (allocated_resource_panic st), Hb.
Qed.

Lemma total_resource_panic gpu_map resource :
  total_resource ParseFloat gpu_map resource = None ->
  HasPrefix resource "gpu:" = true
  /\ (length (Split resource ":") < 3)%nat.
Proof.
  unfold total_resource.
  destruct (HasPrefix resource "gpu:"); [|discriminate].
  intros H. split; [reflexivity|].
  destruct (Split resource ":") as [|p [|q [|d ps]]]; simpl; try lia.
  simpl in H.
  destruct (Split_head d "(") as (h & t & E). rewrite E in H.
  discriminate.
Qed.

Lemma total_line_panic gpu_map line :
  total_line ParseFloat gpu_map line = None ->
  line <> EmptyString /\ total_bad_line line.
Proof.
  unfold total_line, total_bad_line.
  destruct line as [|c line]; [discriminate|].
  cbn [String.length Nat.eqb]. intros H. split; [discriminate|].
  destruct (Fields (Trim (String c line) quote) !! 1%nat) as [gres|] eqn:Eg.
  - right. simpl in H.
    apply for_range_panic_inv in H as (resource & st & Hin & Hb).
    apply total_resource_panic in Hb as [Hp Hlen].
    exists gres, resource. repeat split; assumption.
  - left. apply lookup_ge_None in Eg. lia.
Qed.

End LineByLine.

(** X1. Both parsers work line by line: the map for two texts joined by a
    newline is the map of the first text with the line loop continued on
    the second; a panic in the first text is a panic of the whole. *)
Theorem parsers_continue_after_newline (ParseFloat : string -> float64)
    (a b : string) :
  ParseAllocatedGPUs ParseFloat (a ++ newline ++ b)
  = ParseAllocatedGPUs ParseFloat a
    ≫= (fun gpu_map => allocated_lines ParseFloat gpu_map b)
  /\ ParseTotalGPUs ParseFloat (a ++ newline ++ b)
     = ParseTotalGPUs ParseFloat a
       ≫= (fun gpu_map => total_lines ParseFloat gpu_map b).
Proof.
  split.
  - rewrite !ParseAllocatedGPUs_as_loop. apply allocated_lines_app.
  - rewrite !ParseTotalGPUs_as_loop. apply total_lines_app.
Qed.

(** X2. A newline before or after the text changes the result of neither
    parser: empty lines are skipped. *)
Theorem outer_newlines_ignored (ParseFloat : string -> float64)
    (text : string) :
  (ParseAllocatedGPUs ParseFloat (text ++ newline)
   = ParseAllocatedGPUs ParseFloat text
   /\ ParseAllocatedGPUs ParseFloat (newline ++ text)
      = ParseAllocatedGPUs ParseFloat text)
  /\ (ParseTotalGPUs ParseFloat (text ++ newline)
      = ParseTotalGPUs ParseFloat text
      /\ ParseTotalGPUs ParseFloat (newline ++ text)
         = ParseTotalGPUs ParseFloat text).
Proof.
  repeat split.
  - rewrite !ParseAllocatedGPUs_as_loop.
    rewrite <- (append_nil_r (text ++ newline)), append_assoc.
    rewrite allocated_lines_app.
    destruct (allocated_lines ParseFloat ∅ text); reflexivity.
  - rewrite !ParseAllocatedGPUs_as_loop.
    change (newline ++ text) with (EmptyString ++ newline ++ text).
    rewrite allocated_lines_app. reflexivity.
  - rewrite !ParseTotalGPUs_as_loop.
    rewrite <- (append_nil_r (text ++ newline)), append_assoc.
    rewrite total_lines_app.
    destruct (total_lines ParseFloat ∅ text); reflexivity.
  - rewrite !ParseTotalGPUs_as_loop.
    change (newline ++ text) with (EmptyString ++ newline ++ text).
    rewrite total_lines_app. reflexivity.
Qed.

(** X3. The Allocation Parser panics exactly on the texts with a line that
    holds, between its commas, a token with the prefix [gres/gpu:] and no
    equals sign; on every other text it returns a map. *)
Theorem allocation_parser_panics_exactly (ParseFloat : string -> float64)
    (output : string) :
  ParseAllocatedGPUs ParseFloat output = None
  <-> exists line resource,
        line ∈ Strings.Split output newline
        /\ resource ∈ Strings.Split (Strings.Trim line quote) ","
        /\ allocated_bad_token resource.
Proof.
  rewrite ParseAllocatedGPUs_as_loop. unfold allocated_lines. split.
  - intros H. apply for_range_panic_inv in H as (line & st & Hin & Hb).
    apply allocated_line_panic in Hb as (resource & Hres & Hbad).
    exists line, resource. split; [exact Hin | split; [exact Hres | exact Hbad]].
  - intros (line & resource & Hin & Hres & Hp & Heq).
    apply (for_range_panic _ _ line Hin). intros gpu_map.
    unfold allocated_line.
    destruct line as [|c line].
    { apply list_elem_of_singleton in Hres. subst resource. discriminate. }
    cbn [String.length Nat.eqb].
    apply (for_range_panic _ _ resource Hres). intros st.
    apply allocated_resource_no_equals; [exact Hp|].
    rewrite (Split_whole "=").
    + simpl. lia.
    + apply mem_TrimPrefix. exact Heq.
Qed.

(** X4. The Inventory Parser panics exactly on the texts with a non-empty
    line that has fewer than two fields or whose second field holds a
    token with the prefix [gpu:] and fewer than three colon segments; on
    every other text it returns a map. *)
Theorem inventory_parser_panics_exactly (ParseFloat : string -> float64)
    (output : string) :
  ParseTotalGPUs ParseFloat output = None
  <-> exists line,
        line ∈ Strings.Split output newline
        /\ line <> EmptyString
        /\ total_bad_line line.
Proof.
  rewrite ParseTotalGPUs_as_loop. unfold total_lines. split.
  - intros H. apply for_range_panic_inv in H as (line & st & Hin & Hb).
    apply total_line_panic in Hb as [Hne Hbad].
    exists line. split; [exact Hin | split; [exact Hne | exact Hbad]].
  - intros (line & Hin & Hne & Hbad).
    apply (for_range_panic _ _ line Hin). intros gpu_map.
    destruct Hbad as [Hfew|(gres & resource & Hgres & Hres & Hp & Hseg)].
    + apply total_line_few_fields; assumption.
    + unfold total_line. rewrite length_nonzero by exact Hne.
      rewrite Hgres. simpl.
      apply (for_range_panic _ _ resource Hres). intros st.
      apply total_resource_few_segments; assumption.
Qed.

(** Membership in a list that is written out, case by case. *)
Ltac list_cases H :=
  repeat (apply elem_of_cons in H as [->|H]); [..|apply elem_of_nil in H; destruct H].

(** X5. Texts without GPU tokens give empty maps and no panic: a squeue
    text none of whose tokens starts with [gres/gpu:] (jobs without typed
    GPUs, the generic [gres/gpu=2] included), and a sinfo text whose
    non-empty lines all have a second field without a token that starts
    with [gpu:] (nodes without GPUs), give empty maps, hence no record. *)
Theorem texts_without_gpu_tokens (ParseFloat : string -> float64)
    (squeue_output sinfo_output : string) :
  (forall line resource,
      line ∈ Strings.Split squeue_output newline ->
      resource ∈ Strings.Split (Strings.Trim line quote) "," ->
      Strings.HasPrefix resource "gres/gpu:" = false) ->
  (forall line,
      line ∈ Strings.Split sinfo_output newline -> line <> EmptyString ->
      exists gres,
        Strings.Fields (Strings.Trim line quote) !! 1%nat = Some gres
        /\ forall resource, resource ∈ Strings.Split gres "," ->
                            Strings.HasPrefix resource "gpu:" = false) ->
  ParseAllocatedGPUs ParseFloat squeue_output = Some ∅
  /\ ParseTotalGPUs ParseFloat sinfo_output = Some ∅
  /\ ParseGPUsMetrics ParseFloat sinfo_output squeue_output = Some ∅.
Proof.
  intros Ha Ht.
  assert (Ea : ParseAllocatedGPUs ParseFloat squeue_output = Some ∅).
  { rewrite ParseAllocatedGPUs_as_loop. apply for_range_skip.
    intros line Hline. unfold allocated_line.
    destruct (String.length line =? 0)%nat; [reflexivity|].
    apply for_range_skip. intros resource Hres. unfold allocated_resource.
    rewrite (Ha line resource Hline Hres). reflexivity. }
  assert (Et : ParseTotalGPUs ParseFloat sinfo_output = Some ∅).
  { rewrite ParseTotalGPUs_as_loop. apply for_range_skip.
    intros line Hline. unfold total_line.
    destruct line as [|c line]; [reflexivity|]. cbn [String.length Nat.eqb].
    destruct (Ht _ Hline ltac:(discriminate)) as (gres & -> & Hres).
    simpl. apply for_range_skip. intros resource Hin. unfold total_resource.
    rewrite (Hres resource Hin). reflexivity. }
  repeat split; try assumption.
  unfold ParseGPUsMetrics. rewrite Et, Ea. reflexivity.
Qed.

Lemma texts_without_gpu_tokens_witness :
  ParseGPUsMetrics Strconv.ParseFloat
    ("node01 (null)" ++ newline ++ "node02 (null)" ++ newline)
    ("billing=30,cpu=1,mem=100G,node=1" ++ newline ++ "cpu=4,gres/gpu=2")
  = Some ∅.
Proof.
  apply (texts_without_gpu_tokens Strconv.ParseFloat
           ("billing=30,cpu=1,mem=100G,node=1" ++ newline ++ "cpu=4,gres/gpu=2")
           ("node01 (null)" ++ newline ++ "node02 (null)" ++ newline)).
  - intros line resource Hline Hres. vm_compute in Hline.
    list_cases Hline; vm_compute in Hres; list_cases Hres; reflexivity.
  - intros line Hline Hne. vm_compute in Hline.
    list_cases Hline; try congruence;
      (exists "(null)"; split; [reflexivity|]);
      intros resource Hres; vm_compute in Hres; list_cases Hres; reflexivity.
Defined.

(** ** Sums of contributions *)

Section Contributions.

Variable ParseFloat : string -> float64.

Lemma add_to_lookup gpu_map k v j :
  add_to gpu_map k v !! j
  = if String.eqb k j then Some (F64.add (get gpu_map k) v) else gpu_map !! j.
Proof.
  unfold add_to. destruct (String.eqb_spec k j) as [->|Hne].
  - apply lookup_insert_eq.
  - apply lookup_insert_ne, Hne.
Qed.

Lemma add_counts_lookup contribs : forall gpu_map gpu_type,
  add_counts ParseFloat gpu_map contribs !! gpu_type
  = match counts_of gpu_type contribs with
    | [] => gpu_map !! gpu_type
    | counts =>
        Some (foldl (fun acc count => F64.add acc (ParseFloat count))
                (get gpu_map gpu_type) counts)
    end.
Proof.
  induction contribs as [|[ty count] contribs IH]; intros gpu_map gpu_type;
    [reflexivity|].
  unfold add_counts in *. cbn [foldl counts_of fst snd].
  rewrite IH.
  assert (Hget : get (add_to gpu_map ty (ParseFloat count)) gpu_type
                 = if String.eqb ty gpu_type
                   then F64.add (get gpu_map ty) (ParseFloat count)
                   else get gpu_map gpu_type).
  { unfold get at 1. rewrite add_to_lookup.
    destruct (String.eqb ty gpu_type); reflexivity. }
  rewrite Hget, add_to_lookup.
  destruct (String.eqb_spec ty gpu_type) as [->|Hne];
    destruct (counts_of gpu_type contribs); reflexivity.
Qed.

(** From the empty map the contributions leave each type its sum. *)
Lemma add_counts_total_of contribs gpu_type :
  add_counts ParseFloat ∅ contribs !! gpu_type
  = total_of ParseFloat gpu_type contribs.
Proof.
  rewrite add_counts_lookup. unfold total_of, sum_counts, get.
  rewrite lookup_empty. reflexivity.
Qed.

Lemma add_counts_app gpu_map xs ys :
  add_counts ParseFloat gpu_map (xs ++ ys)
  = add_counts ParseFloat (add_counts ParseFloat gpu_map xs) ys.
Proof. apply foldl_app. Qed.

End Contributions.

(** ** Joined pieces *)

Section Joined.

Import Strings.

Lemma join_with_cons sep piece piece' pieces :
  join_with sep (piece :: piece' :: pieces)
  = piece ++ sep ++ join_with sep (piece' :: pieces).
Proof. reflexivity. Qed.

Lemma Split_join_with c pieces :
  pieces <> [] ->
  Forall (fun piece => mem c piece = false) pieces ->
  Split (join_with (sep1 c) pieces) (sep1 c) = pieces.
Proof.
  induction pieces as [|piece pieces IH]; [congruence|].
  intros _ H. apply Forall_cons in H as [Hp Hrest].
  destruct pieces as [|piece' pieces].
  - apply Split_whole, Hp.
  - rewrite join_with_cons.
    change (piece ++ sep1 c ++ join_with (sep1 c) (piece' :: pieces))
      with (piece ++ String c (join_with (sep1 c) (piece' :: pieces))).
    rewrite Split_cut by exact Hp. f_equal.
    apply IH; [discriminate | exact Hrest].
Qed.

Lemma mem_join_with ch sep pieces :
  mem ch sep = false ->
  Forall (fun piece => mem ch piece = false) pieces ->
  mem ch (join_with sep pieces) = false.
Proof.
  intros Hsep. induction pieces as [|piece pieces IH]; intros H; [reflexivity|].
  apply Forall_cons in H as [Hp Hrest].
  destruct pieces as [|piece' pieces]; [exact Hp|].
  rewrite join_with_cons, !mem_app, Hp, Hsep, (IH Hrest). reflexivity.
Qed.

Lemma all_bytes_join_with p sep pieces :
  all_bytes p sep = true ->
  Forall (fun piece => all_bytes p piece = true) pieces ->
  all_bytes p (join_with sep pieces) = true.
Proof.
  intros Hsep. induction pieces as [|piece pieces IH]; intros H; [reflexivity|].
  apply Forall_cons in H as [Hp Hrest].
  destruct pieces as [|piece' pieces]; [exact Hp|].
  rewrite join_with_cons, !all_bytes_app, Hp, Hsep, (IH Hrest). reflexivity.
Qed.

Lemma join_lines_join_with lines : join_lines lines = join_with newline lines.
Proof.
  induction lines as [|line [|line' lines] IH]; try reflexivity.
  rewrite join_with_cons, <- IH. reflexivity.
Qed.

(** The lines of a command text. *)
Lemma Split_command_text quoted final_newline lines :
  Forall (fun line => mem "010" line = false) lines ->
  exists blank,
    Forall (fun line => line = EmptyString) blank
    /\ Split (command_text quoted final_newline lines) newline
       = (map (wrap quoted) lines ++ blank)%list.
Proof.
  intros H. unfold command_text.
  destruct lines as [|line lines].
  - destruct final_newline.
    + exists [EmptyString; EmptyString]. split; [repeat constructor|reflexivity].
    + exists [EmptyString]. split; [repeat constructor|reflexivity].
  - exists (if final_newline then [EmptyString] else []).
    split; [destruct final_newline; repeat constructor|].
    apply Split_lines_text; [discriminate|].
    apply Forall_fmap. eapply Forall_impl; [exact H|].
    intros l Hl. simpl. apply mem_wrap; [reflexivity | exact Hl].
Qed.

End Joined.

(** ** Job lines *)

Section JobLines.

Import Strings.
Variable ParseFloat : string -> float64.

Lemma field_tres_byte c : field_byte c = true -> tres_byte c = true.
Proof. unfold field_byte. intros H. apply andb_true_iff in H as [H _]. exact H. Qed.

Lemma tres_text_no_byte ch t :
  tres_byte ch = false -> mem ch "gres/gpu:=" = false ->
  well_formed_tres t -> mem ch (tres_text t) = false.
Proof.
  intros Hch Hconst Ht.
  destruct t as [text|gpu_type count]; cbn [tres_text well_formed_tres] in *.
  - destruct Ht as [Hb _]. apply (all_bytes_mem _ _ _ Hch Hb).
  - destruct Ht as [Hty Hc].
    apply (all_bytes_weaken _ _ _ field_tres_byte) in Hty, Hc.
    change ("gres/gpu:" ++ gpu_type ++ "=" ++ count)
      with ("gres/gpu:" ++ gpu_type ++ String "=" count).
    assert (H1 : mem ch "gres/gpu:" = false /\ Ascii.eqb ch "=" = false).
    { change "gres/gpu:=" with ("gres/gpu:" ++ String "=" EmptyString) in Hconst.
      rewrite mem_app in Hconst. apply orb_false_iff in Hconst as [H1 H2].
      split; [exact H1|]. simpl in H2.
      destruct (Ascii.eqb ch "="); [discriminate|reflexivity]. }
    destruct H1 as [H1 H2].
    rewrite !mem_app, H1, (all_bytes_mem _ _ _ Hch Hty). cbn [mem orb].
    rewrite H2. apply (all_bytes_mem _ _ _ Hch Hc).
Qed.

Lemma job_line_no_byte ch job :
  tres_byte ch = false -> mem ch "gres/gpu:=" = false -> mem ch "," = false ->
  Forall well_formed_tres job -> mem ch (job_line job) = false.
Proof.
  intros Hch Hconst Hcomma Hjob. unfold job_line.
  apply mem_join_with; [exact Hcomma|].
  apply Forall_fmap. eapply Forall_impl; [exact Hjob|].
  intros t Ht. simpl. apply tres_text_no_byte; assumption.
Qed.

(** What the inner loop does with a well-formed token. *)
Lemma allocated_resource_tres gpu_map t :
  well_formed_tres t ->
  allocated_resource ParseFloat gpu_map (tres_text t)
  = Some (add_counts ParseFloat gpu_map (option_list (tres_count t))).
Proof.
  destruct t as [text|gpu_type count];
    cbn [tres_text well_formed_tres tres_count]; intros [H1 H2].
  - unfold allocated_resource. rewrite H2. reflexivity.
  - rewrite allocated_resource_typed; [reflexivity|..];
      apply (all_bytes_mem field_byte); (reflexivity || assumption).
Qed.

Lemma job_tokens_run job : forall gpu_map,
  Forall well_formed_tres job ->
  for_range (map tres_text job) (allocated_resource ParseFloat) gpu_map
  = Some (add_counts ParseFloat gpu_map (omap tres_count job)).
Proof.
  induction job as [|t job IH]; intros gpu_map H; [reflexivity|].
  apply Forall_cons in H as [Ht Hjob].
  cbn [map for_range]. rewrite (allocated_resource_tres _ _ Ht).
  rewrite (IH _ Hjob). destruct t; reflexivity.
Qed.

(** The guard on the empty line skips what the token loop would skip. *)
Lemma allocated_line_as_loop gpu_map line :
  allocated_line ParseFloat gpu_map line
  = for_range (Split (Trim line quote) ",") (allocated_resource ParseFloat)
      gpu_map.
Proof. destruct line; reflexivity. Qed.

Lemma allocated_line_job quoted job gpu_map :
  Forall well_formed_tres job ->
  allocated_line ParseFloat gpu_map (wrap quoted (job_line job))
  = Some (add_counts ParseFloat gpu_map (omap tres_count job)).
Proof.
  intros Hjob. rewrite allocated_line_as_loop.
  rewrite Trim_wrap
    by (apply job_line_no_byte; (reflexivity || assumption)).
  destruct job as [|t job]; [reflexivity|].
  unfold job_line. change "," with (sep1 ",").
  rewrite Split_join_with.
  - apply job_tokens_run, Hjob.
  - discriminate.
  - apply Forall_fmap. eapply Forall_impl; [exact Hjob|].
    intros t' Ht'. simpl. apply tres_text_no_byte; (reflexivity || assumption).
Qed.

Lemma job_lines_run quoted jobs : forall gpu_map,
  Forall (Forall well_formed_tres) jobs ->
  for_range (map (wrap quoted) (map job_line jobs))
    (allocated_line ParseFloat) gpu_map
  = Some (add_counts ParseFloat gpu_map (omap tres_count (concat jobs))).
Proof.
  induction jobs as [|job jobs IH]; intros gpu_map H; [reflexivity|].
  apply Forall_cons in H as [Hjob Hjobs].
  cbn [map for_range concat]. rewrite (allocated_line_job _ _ _ Hjob).
  rewrite (IH _ Hjobs), omap_app, add_counts_app. reflexivity.
Qed.

End JobLines.

(** X6. On well-formed squeue output the Allocation Parser returns, for
    each GPU type, the sum of the counts of the tokens
    [gres/gpu:<type>=<count>] of all jobs, taken from 0 in the order of
    the text; a type without such a token is absent, and every other token
    is ignored.  The lines may be bare or between quotes, and the text may
    end with a newline. *)
Theorem allocation_sums_typed_tokens (ParseFloat : string -> float64)
    (quoted final_newline : bool) (jobs : list (list tres)) :
  Forall (Forall well_formed_tres) jobs ->
  exists allocs,
    ParseAllocatedGPUs ParseFloat
      (command_text quoted final_newline (map job_line jobs)) = Some allocs
    /\ forall gpu_type,
         allocs !! gpu_type
         = total_of ParseFloat gpu_type (omap tres_count (concat jobs)).
Proof.
  intros Hjobs.
  exists (add_counts ParseFloat ∅ (omap tres_count (concat jobs))).
  split; [|intros gpu_type; apply add_counts_total_of].
  rewrite ParseAllocatedGPUs_as_loop. unfold allocated_lines.
  destruct (Split_command_text quoted final_newline (map job_line jobs))
    as (blank & Hblank & ->).
  { apply Forall_fmap. eapply Forall_impl; [exact Hjobs|].
    intros job Hjob. simpl.
    apply job_line_no_byte; (reflexivity || assumption). }
  rewrite for_range_app, (job_lines_run _ _ _ _ Hjobs). simpl.
  apply for_range_skip. intros line Hline.
  rewrite (proj1 (Forall_forall _ _) Hblank line Hline). reflexivity.
Qed.

Lemma allocation_sums_typed_tokens_witness :
  ParseAllocatedGPUs Strconv.ParseFloat
    (quote ++ "billing=30,cpu=1,gres/gpu:a100=2,gres/gpu=2,mem=100G,node=1"
     ++ quote ++ newline
     ++ quote ++ "gres/gpu:a100=1,gres/gpu:k80=4,cpu=8" ++ quote ++ newline)
  = Some {[ "a100" := F64.of_Z 3; "k80" := F64.of_Z 4 ]}.
Proof.
  destruct (allocation_sums_typed_tokens Strconv.ParseFloat true true sample_jobs)
    as (allocs & Hrun & Hsum).
  - repeat constructor.
  - change (command_text true true (map job_line sample_jobs))
      with (quote ++ "billing=30,cpu=1,gres/gpu:a100=2,gres/gpu=2,mem=100G,node=1"
            ++ quote ++ newline
            ++ quote ++ "gres/gpu:a100=1,gres/gpu:k80=4,cpu=8" ++ quote ++ newline)
      in Hrun.
    rewrite Hrun. f_equal. apply map_eq. intros k.
    rewrite Hsum.
    destruct (decide (k = "a100")) as [->|Ha]; [reflexivity|].
    destruct (decide (k = "k80")) as [->|Hk]; [reflexivity|].
    rewrite lookup_insert_ne, lookup_singleton_ne by congruence.
    change (omap tres_count (concat sample_jobs))
      with [("a100", "2"); ("a100", "1"); ("k80", "4")].
    unfold total_of. cbn [counts_of].
    destruct (String.eqb_spec "a100" k); [congruence|].
    destruct (String.eqb_spec "k80" k); [congruence|]. reflexivity.
Defined.

(** ** Node lines with several resources *)

Section NodeGresLines.

Import Strings.
Variable ParseFloat : string -> float64.

Lemma gres_text_bytes g :
  well_formed_gres g -> all_bytes suffix_byte (gres_text g) = true.
Proof.
  destruct g as [text|gpu_type count [s|]]; cbn [gres_text well_formed_gres].
  - intros (_ & H & _). exact H.
  - intros (Ht & Hc & Hs). apply (node_line_bytes EmptyString); assumption.
  - intros (Ht & Hc & _).
    apply (all_bytes_weaken _ _ _ plain_suffix_byte) in Ht, Hc.
    rewrite !all_bytes_app, Ht, Hc. reflexivity.
Qed.

Lemma gres_text_nonempty g : well_formed_gres g -> gres_text g <> EmptyString.
Proof.
  destruct g as [text|gpu_type count suffix]; cbn [gres_text well_formed_gres].
  - intros (H & _). exact H.
  - intros _. discriminate.
Qed.

(** What the inner loop does with a well-formed token. *)
Lemma total_resource_gres gpu_map g :
  well_formed_gres g ->
  total_resource ParseFloat gpu_map (gres_text g)
  = Some (add_counts ParseFloat gpu_map (option_list (gres_count g))).
Proof.
  destruct g as [text|gpu_type count suffix];
    cbn [gres_text well_formed_gres gres_count].
  - intros (_ & _ & Hp). unfold total_resource. rewrite Hp. reflexivity.
  - intros (Ht & Hc & Hs).
    set (tail := match suffix with
                 | Some s => "(" ++ s ++ ")"
                 | None => EmptyString
                 end).
    unfold total_resource.
    change (HasPrefix ("gpu:" ++ gpu_type ++ ":" ++ count ++ tail) "gpu:")
      with true. cbv iota.
    assert (Hcolon : exists h t,
               Split ("gpu:" ++ gpu_type ++ ":" ++ count ++ tail) ":"
               = "gpu" :: gpu_type :: (count ++ h) :: t
               /\ Split (count ++ h) "(" !! 0%nat = Some count).
    { destruct (Split_head tail ":") as (h & t & E).
      exists h, t.
      change ("gpu:" ++ gpu_type ++ ":" ++ count ++ tail)
        with ("gpu" ++ String ":" (gpu_type ++ String ":" (count ++ tail))).
      change (Split ?x ":") with (Split x (sep1 ":")).
      rewrite (Split_cut ":" "gpu") by reflexivity.
      rewrite (Split_cut ":" gpu_type)
        by (apply (all_bytes_mem plain); [reflexivity|exact Ht]).
      rewrite (Split_prefix ":" count)
        by (apply (all_bytes_mem plain); [reflexivity|exact Hc]).
      change (Split tail (sep1 ":")) with (Split tail ":").
      rewrite E. split; [reflexivity|].
      change (Split ?x "(") with (Split x (sep1 "(")).
      rewrite (Split_prefix "(" count)
        by (apply (all_bytes_mem plain); [reflexivity|exact Hc]).
      assert (Hh : h = EmptyString \/ exists h', h = String "(" h').
      { subst tail. destruct suffix as [s|].
        - right. change ("(" ++ s ++ ")") with (String "(" (s ++ ")")) in E.
          change (Split ?x ":") with (Split x (sep1 ":")) in E.
          rewrite (Split_skip "(" ":") in E by discriminate.
          destruct (Split (s ++ ")") (sep1 ":")) as [|p ps];
            injection E as <- _; eauto.
        - left. rewrite Split_empty in E. injection E as <- _. reflexivity. }
      destruct Hh as [->|[h' ->]].
      - rewrite Split_empty, append_nil_r. reflexivity.
      - rewrite Split_at_sep, append_nil_r. reflexivity. }
    destruct Hcolon as (h & t & -> & Hcount).
    cbn [lookup list_lookup mbind option_bind].
    rewrite Hcount. reflexivity.
Qed.

Lemma gres_tokens_run tokens : forall gpu_map,
  Forall well_formed_gres tokens ->
  for_range (map gres_text tokens) (total_resource ParseFloat) gpu_map
  = Some (add_counts ParseFloat gpu_map (omap gres_count tokens)).
Proof.
  induction tokens as [|g tokens IH]; intros gpu_map H; [reflexivity|].
  apply Forall_cons in H as [Hg Htokens].
  cbn [map for_range]. rewrite (total_resource_gres _ _ Hg).
  rewrite (IH _ Htokens). destruct g; reflexivity.
Qed.

Lemma gres_field_bytes n :
  well_formed_node n ->
  all_bytes graphic (join_with "," (map gres_text (gres_tokens n))) = true
  /\ (forall ch, suffix_byte ch = false -> Ascii.eqb ch "," = false ->
                 mem ch (join_with "," (map gres_text (gres_tokens n))) = false)
  /\ join_with "," (map gres_text (gres_tokens n)) <> EmptyString.
Proof.
  intros (_ & _ & Hsome & Htokens). repeat split.
  - apply all_bytes_join_with; [reflexivity|].
    apply Forall_fmap. eapply Forall_impl; [exact Htokens|].
    intros g Hg. simpl.
    apply (all_bytes_weaken _ _ _ suffix_byte_graphic), gres_text_bytes, Hg.
  - intros ch Hch Hcomma. apply mem_join_with.
    + simpl. rewrite Hcomma. reflexivity.
    + apply Forall_fmap. eapply Forall_impl; [exact Htokens|].
      intros g Hg. simpl.
      apply (all_bytes_mem _ _ _ Hch), gres_text_bytes, Hg.
  - destruct (gres_tokens n) as [|g [|g' tokens]]; [congruence| |].
    + apply Forall_cons in Htokens as [Hg _]. apply gres_text_nonempty, Hg.
    + apply Forall_cons in Htokens as [Hg _]. cbn [map].
      rewrite join_with_cons. apply append_nonempty, gres_text_nonempty, Hg.
Qed.

(** A well-formed node line adds the counts of its GPU resources. *)
Lemma total_line_node_gres quoted gpu_map n :
  well_formed_node n ->
  total_line ParseFloat gpu_map (wrap quoted (node_gres_line n))
  = Some (add_counts ParseFloat gpu_map (omap gres_count (gres_tokens n))).
Proof.
  intros Hn.
  destruct (gres_field_bytes n Hn) as (Hg & Hmem & Hfield).
  destruct Hn as (Hname & Hbytes & Hsome & Htokens).
  set (field := join_with "," (map gres_text (gres_tokens n))) in *.
  assert (Hq : mem "034" (node_gres_line n) = false).
  { unfold node_gres_line. fold field.
    change (gres_node n ++ " " ++ field) with (gres_node n ++ String " " field).
    rewrite mem_app, (all_bytes_mem suffix_byte "034" _ eq_refl Hbytes).
    cbn [mem orb]. change (Ascii.eqb "034" " ") with false. cbv iota.
    apply Hmem; reflexivity. }
  rewrite total_line_wrap;
    [ | apply append_nonempty, Hname | exact Hq ].
  unfold total_line.
  rewrite length_nonzero by (apply append_nonempty, Hname).
  rewrite (Trim_no_quote _ Hq).
  unfold node_gres_line. fold field.
  change (gres_node n ++ " " ++ field) with (gres_node n ++ String " " field).
  rewrite Fields_two_words;
    [ | apply (all_bytes_weaken _ _ _ suffix_byte_graphic), Hbytes
      | exact Hg | exact Hname | exact Hfield ].
  cbn [lookup list_lookup mbind option_bind].
  subst field. change "," with (sep1 ",").
  rewrite Split_join_with.
  - apply gres_tokens_run, Htokens.
  - destruct (gres_tokens n); [congruence|discriminate].
  - apply Forall_fmap. eapply Forall_impl; [exact Htokens|].
    intros g Hg'. simpl.
    apply (all_bytes_mem suffix_byte); [reflexivity|].
    apply gres_text_bytes, Hg'.
Qed.

Lemma node_gres_lines_run quoted nodes : forall gpu_map,
  Forall well_formed_node nodes ->
  for_range (map (wrap quoted) (map node_gres_line nodes))
    (total_line ParseFloat) gpu_map
  = Some (add_counts ParseFloat gpu_map
            (omap gres_count (concat (map gres_tokens nodes)))).
Proof.
  induction nodes as [|n nodes IH]; intros gpu_map H; [reflexivity|].
  apply Forall_cons in H as [Hn Hnodes].
  cbn [map for_range concat]. rewrite (total_line_node_gres _ _ _ Hn).
  rewrite (IH _ Hnodes), omap_app, add_counts_app. reflexivity.
Qed.

Lemma node_gres_line_no_newline n :
  well_formed_node n -> mem "010" (node_gres_line n) = false.
Proof.
  intros Hn. destruct (gres_field_bytes n Hn) as (_ & Hmem & _).
  destruct Hn as (_ & Hbytes & _).
  unfold node_gres_line.
  change (gres_node n ++ " " ++ ?f) with (gres_node n ++ String " " f).
  rewrite mem_app, (all_bytes_mem suffix_byte "010" _ eq_refl Hbytes).
  cbn [mem orb]. change (Ascii.eqb "010" " ") with false. cbv iota.
  apply Hmem; reflexivity.
Qed.

End NodeGresLines.

(** X7. On well-formed sinfo output the Inventory Parser returns, for each
    GPU type, the sum of the counts of the tokens [gpu:<type>:<count>]
    (with or without a parenthesised suffix) of the second fields of all
    node lines, taken from 0 in the order of the text; a type without such
    a token is absent, and every other token of a second field ([(null)],
    [mps:100], ...) is ignored.  The lines may be bare or between quotes,
    and the text may end with a newline. *)
Theorem inventory_sums_gpu_tokens (ParseFloat : string -> float64)
    (quoted final_newline : bool) (nodes : list node_gres) :
  Forall well_formed_node nodes ->
  exists totals,
    ParseTotalGPUs ParseFloat
      (command_text quoted final_newline (map node_gres_line nodes))
    = Some totals
    /\ forall gpu_type,
         totals !! gpu_type
         = total_of ParseFloat gpu_type
             (omap gres_count (concat (map gres_tokens nodes))).
Proof.
  intros Hnodes.
  exists (add_counts ParseFloat ∅
            (omap gres_count (concat (map gres_tokens nodes)))).
  split; [|intros gpu_type; apply add_counts_total_of].
  rewrite ParseTotalGPUs_as_loop. unfold total_lines.
  destruct (Split_command_text quoted final_newline (map node_gres_line nodes))
    as (blank & Hblank & ->).
  { apply Forall_fmap. eapply Forall_impl; [exact Hnodes|].
    intros n Hn. simpl. apply node_gres_line_no_newline, Hn. }
  rewrite for_range_app, (node_gres_lines_run _ _ _ _ Hnodes). simpl.
  apply for_range_skip. intros line Hline.
  rewrite (proj1 (Forall_forall _ _) Hblank line Hline). reflexivity.
Qed.

Lemma inventory_sums_gpu_tokens_witness :
  ParseTotalGPUs Strconv.ParseFloat
    ("node01 gpu:a100:4(S:0),gpu:k80:2(S:1)" ++ newline
     ++ "node02 (null)" ++ newline
     ++ "node03 gpu:a100:4,mps:100" ++ newline)
  = Some {[ "a100" := F64.of_Z 8; "k80" := F64.of_Z 2 ]}.
Proof.
  destruct (inventory_sums_gpu_tokens Strconv.ParseFloat false true sample_nodes)
    as (totals & Hrun & Hsum).
  - repeat constructor; discriminate.
  - change (command_text false true (map node_gres_line sample_nodes))
      with ("node01 gpu:a100:4(S:0),gpu:k80:2(S:1)" ++ newline
            ++ "node02 (null)" ++ newline
            ++ "node03 gpu:a100:4,mps:100" ++ newline)
      in Hrun.
    rewrite Hrun. f_equal. apply map_eq. intros k.
    rewrite Hsum.
    destruct (decide (k = "a100")) as [->|Ha]; [reflexivity|].
    destruct (decide (k = "k80")) as [->|Hk]; [reflexivity|].
    rewrite lookup_insert_ne, lookup_singleton_ne by congruence.
    change (omap gres_count (concat (map gres_tokens sample_nodes)))
      with [("a100", "4"); ("k80", "2"); ("a100", "4")].
    unfold total_of. cbn [counts_of].
    destruct (String.eqb_spec "a100" k); [congruence|].
    destruct (String.eqb_spec "k80" k); [congruence|]. reflexivity.
Defined.

(** ** The aggregation loop, further *)

Section AggregatorFacts.

Variables totals allocs : gmap string float64.

Lemma metrics_loop_lookup keys : forall (types : gmap string GPUsMetrics) j,
  foldl (fun types gpu_type => metrics_body totals allocs gpu_type types)
    types keys !! j
  = if decide (j ∈ keys) then Some (record_of totals allocs j) else types !! j.
Proof.
  induction keys as [|k keys IH]; intros types j.
  - cbn [foldl]. destruct (decide (j ∈ [])) as [H|_]; [|reflexivity].
    apply elem_of_nil in H. destruct H.
  - cbn [foldl]. rewrite IH, metrics_body_insert.
    destruct (decide (j ∈ keys)) as [Hin|Hout].
    + rewrite decide_True by (right; exact Hin). reflexivity.
    + destruct (decide (j = k)) as [->|Hne].
      * rewrite decide_True by left. apply lookup_insert_eq.
      * rewrite decide_False.
        -- apply lookup_insert_ne. congruence.
        -- intros H. apply elem_of_cons in H as [H|H]; contradiction.
Qed.

End AggregatorFacts.

(** X8. The aggregated map does not depend on the order in which Go's
    range visits the inventory map: taking the turns of the loop in any
    order that visits every inventory key gives the same map. *)
Theorem aggregation_order_independent (totals allocs : gmap string float64)
    (keys : list string) :
  range_order totals keys ->
  aggregate_in_order totals allocs keys = AggregateGPUs totals allocs.
Proof.
  intros [_ Hkeys]. apply map_eq. intros j.
  unfold aggregate_in_order.
  rewrite metrics_loop_lookup, AggregateGPUs_lookup, lookup_empty.
  destruct (decide (j ∈ keys)) as [Hin|Hout].
  - apply Hkeys in Hin as [t ->]. reflexivity.
  - destruct (totals !! j) as [t|] eqn:E; [|reflexivity].
    exfalso. apply Hout, Hkeys. rewrite E. eauto.
Qed.

Lemma sample_range_order (keys : list string) :
  NoDup keys -> (forall k, k ∈ keys <-> k = "a100" \/ k = "k80") ->
  range_order
    ({[ "a100" := F64.of_Z 4; "k80" := F64.of_Z 2 ]} : gmap string float64)
    keys.
Proof.
  intros Hnd Hkeys. split; [exact Hnd|]. intros k. rewrite Hkeys. split.
  - intros [->| ->]; eexists; vm_compute; reflexivity.
  - intros [v Hv].
    destruct (decide (k = "a100")) as [|Ha]; [left; assumption|].
    destruct (decide (k = "k80")) as [|Hk]; [right; assumption|].
    rewrite lookup_insert_ne, lookup_singleton_ne in Hv by congruence.
    discriminate.
Qed.

Lemma aggregation_order_independent_witness :
  aggregate_in_order {[ "a100" := F64.of_Z 4; "k80" := F64.of_Z 2 ]}
    {[ "a100" := F64.of_Z 1 ]} ["k80"; "a100"]
  = aggregate_in_order {[ "a100" := F64.of_Z 4; "k80" := F64.of_Z 2 ]}
      {[ "a100" := F64.of_Z 1 ]} ["a100"; "k80"].
Proof.
  rewrite !aggregation_order_independent; [reflexivity| |];
    (apply sample_range_order;
     [ apply (bool_decide_unpack _); vm_compute; exact I
     | intros k; split;
       [ intros H; list_cases H; auto
       | intros [->| ->]; repeat constructor ] ]).
Defined.

(** X9. A GPU type of the inventory that no running job holds gets the
    record alloc = 0, idle = total, and, when its total is positive,
    utilization = 0. *)
Theorem unallocated_type_record (totals allocs : gmap string float64)
    (k : string) (t : float64) :
  totals !! k = Some t ->
  allocs !! k = None ->
  exists r,
    AggregateGPUs totals allocs !! k = Some r
    /\ alloc r = F64.zero /\ total r = t /\ idle r = t
    /\ (F64.ltb F64.zero t = true -> utilization r = F64.zero).
Proof.
  intros Ht Ha. exists (record_of totals allocs k).
  rewrite AggregateGPUs_lookup, Ht. unfold record_of, get. rewrite Ht, Ha.
  simpl. repeat split.
  - destruct t as [[]|[]| |s m e]; reflexivity.
  - intros Hpos. destruct t as [s|[]| |[] m e]; try discriminate Hpos;
      reflexivity.
Qed.

Lemma unallocated_type_record_witness :
  AggregateGPUs {[ "k80" := F64.of_Z 24 ]} {[ "a100" := F64.of_Z 1 ]} !! "k80"
  = Some {| alloc := F64.zero; idle := F64.of_Z 24; total := F64.of_Z 24;
            utilization := F64.zero |}.
Proof.
  destruct (unallocated_type_record {[ "k80" := F64.of_Z 24 ]}
              {[ "a100" := F64.of_Z 1 ]} "k80" (F64.of_Z 24))
    as ([a i t u] & Hr & Ha & Ht & Hi & Hu).
  - vm_compute. reflexivity.
  - vm_compute. reflexivity.
  - simpl in *. rewrite Hr, Ha, Ht, Hi, Hu; reflexivity.
Defined.

(** ** The sign of a difference *)

Section Difference.

Lemma iter_xO_pow m d : Z.pos (Pos.iter xO m d) = Z.pos m * 2 ^ Z.pos d.
Proof.
  induction d as [|d IH] using Pos.peano_ind.
  - change (Pos.iter xO m 1) with (m~0)%positive. change (2 ^ 1) with 2. lia.
  - rewrite Pos.iter_succ, Pos2Z.inj_xO, IH, Pos2Z.inj_succ.
    rewrite Z.pow_succ_r by lia. lia.
Qed.

(** [y - x] is non-negative for binary64 numbers [0 <= x <= y] with [x]
    finite. *)
Lemma sub_nonneg x y :
  F64.valid x = true -> F64.valid y = true ->
  nonneg x -> F64.is_finite x = true -> F64.leb x y = true ->
  nonneg (F64.sub y x).
Proof.
  intros Vx Vy Hx Fx Hle.
  destruct (nonneg_cases x Hx) as [[sx ->]|[->|(mx & ex & ->)]];
    try discriminate Fx.
  - destruct y as [sy|[]| |[] my ey]; try discriminate Hle;
      try reflexivity; destruct sx, sy; reflexivity.
  - destruct y as [sy|[]| |[] my ey]; try discriminate Hle; try reflexivity.
    destruct (valid_le_mantissas mx ex my ey Vx Vy Hle) as [He Hm].
    clear Vx Vy Hle Hx Fx.
    apply has_sign_nonneg. unfold F64.sub, SFsub. cbn [cond_Zopp].
    rewrite (Z.min_r ey ex He).
    assert (Ex : fst (shl_align mx ex ex) = mx).
    { unfold shl_align. rewrite Z.sub_diag. reflexivity. }
    assert (Ey : Z.pos (fst (shl_align my ey ex)) = Z.pos my * 2 ^ (ey - ex)).
    { unfold shl_align. destruct (ex - ey) as [|d|d] eqn:Ed; cbn [fst].
      - replace (ey - ex) with 0 by lia. lia.
      - lia.
      - rewrite iter_xO_pow. f_equal. f_equal. lia. }
    rewrite Ex.
    destruct (Z.pos (fst (shl_align my ey ex)) - Z.pos mx) as [|p|p] eqn:Ed;
      cbn [binary_normalize].
    + reflexivity.
    + apply binary_round_sign.
    + rewrite Ey in Ed. lia.
Qed.

End Difference.

(** X10. For an emitted record whose alloc and total are binary64 numbers
    with 0 <= alloc <= total and alloc finite, idle is non-negative (and
    not NaN). *)
Theorem idle_nonneg (totals allocs : gmap string float64)
    (k : string) (r : GPUsMetrics) :
  AggregateGPUs totals allocs !! k = Some r ->
  F64.valid (alloc r) = true -> F64.valid (total r) = true ->
  F64.is_finite (alloc r) = true -> nonneg (alloc r) ->
  F64.leb (alloc r) (total r) = true ->
  nonneg (idle r).
Proof.
  rewrite AggregateGPUs_lookup.
  destruct (totals !! k) as [t|]; [|discriminate].
  intros [= <-]. simpl. intros Va Vt Hfin Ha Hle.
  apply sub_nonneg; assumption.
Qed.

Lemma idle_nonneg_witness : nonneg (F64.sub (F64.of_Z 24) (F64.of_Z 20)).
Proof.
  apply (idle_nonneg {[ "k80" := F64.of_Z 24 ]} {[ "k80" := F64.of_Z 20 ]} "k80"
           {| alloc := F64.of_Z 20; idle := F64.of_Z 4; total := F64.of_Z 24;
              utilization := F64.div (F64.of_Z 20) (F64.of_Z 24) |});
    vm_compute; reflexivity.
Defined.

(** ** The collector *)

Section CollectorFacts.

Variable cc : GPUsCollector.
Variable cm : gmap string GPUsMetrics.






End CollectorFacts.

Section RangeOrders.

Context {V : Type}.



End RangeOrders.






Lemma type_metrics_announced k r m :
  m ∈ type_metrics NewGPUsCollector k r -> announced NewGPUsCollector m.
Proof.
  intros H. unfold type_metrics in H. list_cases H;
    (split; [|split; reflexivity]); unfold Describe; simpl.
  - left.
  - right. left.
  - right. right. left.
  - right. right. right. left.
Qed.

(** X13. Every metric that [Collect] sends for the collector built by
    [NewGPUsCollector] uses one of the four descriptors that [Describe]
    sends, is a gauge, and carries as many label values (one, the GPU
    type) as its descriptor has labels (one, [type]). *)
Theorem collect_matches_describe (ParseFloat : string -> float64)
    (sinfo_output squeue_output : string)
    (order : gmap string GPUsMetrics -> list string)
    (sent : list ConstMetric) :
  Collect NewGPUsCollector ParseFloat sinfo_output squeue_output order
  = Some sent ->
  forall m, m ∈ sent -> announced NewGPUsCollector m.
Proof.
  unfold Collect.
  destruct (GPUsGetMetrics ParseFloat sinfo_output squeue_output) as [cm|];
    [|discriminate].
  simpl. unfold collect_loop. intros Hrun.
  assert (Hall : Forall (announced NewGPUsCollector) sent).
  { revert Hrun.
    apply (for_range_invariant (Forall (announced NewGPUsCollector)));
      [|constructor].
    intros st k st' _ Hst. unfold collect_type.
    destruct (cm !! k) as [r|]; [|discriminate].
    simpl. intros [= <-]. apply Forall_app. split; [exact Hst|].
    apply Forall_forall. intros m Hm. apply (type_metrics_announced k r m Hm). }
  intros m Hm. apply (proj1 (Forall_forall _ _) Hall m Hm).
Qed.

Lemma collect_matches_describe_witness :
  announced NewGPUsCollector
    (MustNewConstMetric (desc_utilization NewGPUsCollector) GaugeValue half
       ["a100"]).
Proof.
  apply (collect_matches_describe Strconv.ParseFloat sample_sinfo sample_squeue
           (fun cm => (map_to_list cm).*1)
           (type_metrics NewGPUsCollector "a100"
              {| alloc := F64.of_Z 2; idle := F64.of_Z 2;
                 total := F64.of_Z 4; utilization := half |})).
  - vm_compute. reflexivity.
  - unfold type_metrics. right. right. right. left.
Defined.

(** ** A quotient of at most one *)

Section BelowOne.

Lemma pow2_double e : e <= -1 -> 2 ^ (- e) = 2 * 2 ^ (- (e + 1)).
Proof.
  intros H. replace (- e) with (Z.succ (- (e + 1))) by lia.
  apply Z.pow_succ_r. lia.
Qed.

Lemma shr_1_below mrs e :
  below_one mrs e -> e <= -1 -> below_one (shr_1 mrs) (e + 1).
Proof.
  intros (He & Hm & Hs) He1. unfold below_one.
  rewrite (pow2_double e He1) in Hm, Hs.
  assert (Hk : 0 < 2 ^ (- (e + 1))) by (apply Z.pow_pos_nonneg; lia).
  set (K := 2 ^ (- (e + 1))) in *.
  destruct mrs as [m r s]. unfold inexact in *. cbn [shr_m shr_r shr_s] in *.
  split; [clear - He1; lia|].
  destruct m as [|[p|p|]|p]; cbn [shr_1 shr_m shr_r shr_s orb].
  - split; [clear - Hk; lia|]. intros _. exact Hk.
  - assert (Z.pos p < K) by (clear - Hm; lia).
    split; [clear - H; lia|]. intros _. exact H.
  - split; [clear - Hm; lia|]. intros H. specialize (Hs H). clear - Hs. lia.
  - split; [clear - Hk; lia|]. intros _. exact Hk.
  - exfalso. clear - Hm. lia.
Qed.

Lemma iter_shr_1_below p : forall mrs e,
  below_one mrs e -> e + Z.pos p <= 0 ->
  below_one (SpecFloat.iter_pos shr_1 p mrs) (e + Z.pos p).
Proof.
  induction p as [p IH|p IH|]; intros mrs e H He; cbn [SpecFloat.iter_pos].
  - replace (e + Z.pos p~1) with (((e + 1) + Z.pos p) + Z.pos p) by lia.
    apply IH; [apply IH; [apply shr_1_below|]|]; (assumption || lia).
  - replace (e + Z.pos p~0) with ((e + Z.pos p) + Z.pos p) by lia.
    apply IH; [apply IH|]; (assumption || lia).
  - apply shr_1_below; [assumption | lia].
Qed.

Lemma shr_fexp_below m e l :
  below_one (shr_record_of_loc m l) e ->
  below_one (fst (shr_fexp prec emax m e l)) (snd (shr_fexp prec emax m e l))
  /\ (snd (shr_fexp prec emax m e l) = e
      \/ snd (shr_fexp prec emax m e l) <= -52).
Proof.
  intros H. pose proof H as (He & Hm & _). rewrite shr_record_of_loc_m in Hm.
  assert (Hf : fexp prec emax (Zdigits2 m + e) <= -52).
  { assert (Zdigits2 m <= - e + 1).
    { apply Zdigits2_le; [lia|]. split; [lia|].
      rewrite Z.pow_add_r by lia. change (2 ^ 1) with 2.
      assert (0 < 2 ^ (- e)) by (apply Z.pow_pos_nonneg; lia). lia. }
    unfold fexp, emin, prec, emax. lia. }
  unfold shr_fexp, shr.
  destruct (fexp prec emax (Zdigits2 m + e) - e) as [|p|p] eqn:En; cbn [fst snd].
  - split; [exact H | left; reflexivity].
  - split; [apply iter_shr_1_below; [exact H | lia] | right; lia].
  - split; [exact H | left; reflexivity].
Qed.

Lemma round_below mrs e :
  below_one mrs e ->
  0 <= round_nearest_even (shr_m mrs) (loc_of_shr_record mrs) <= 2 ^ (- e).
Proof.
  intros (He & Hm & Hs). destruct mrs as [m [] []]; unfold inexact in Hs;
    cbn [shr_m shr_r shr_s loc_of_shr_record round_nearest_even orb] in *;
    try destruct (Z.even m); try specialize (Hs eq_refl); lia.
Qed.

Lemma below_one_exact m e :
  e <= 0 -> 0 <= m <= 2 ^ (- e) -> below_one (shr_record_of_loc m loc_Exact) e.
Proof. intros He Hm. repeat split; try (simpl; lia). discriminate. Qed.


Lemma of_Z_one : F64.of_Z 1 = S754_finite false 4503599627370496 (-52).
Proof. vm_compute. reflexivity. Qed.

Lemma pow2_52 : 2 ^ 52 = 4503599627370496.
Proof. vm_compute. reflexivity. Qed.

Lemma compare_cont_le p q :
  Z.pos p <= Z.pos q ->
  match Pos.compare_cont Eq p q with Gt => false | _ => true end = true.
Proof.
  intros H. change (Pos.compare_cont Eq p q) with (Pos.compare p q).
  destruct (Pos.compare_spec p q) as [Heq|Hl|Hg];
    [reflexivity | reflexivity | exfalso; lia].
Qed.

Lemma finite_le_one m e :
  e <= -52 -> Z.pos m <= 2 ^ (- e) ->
  F64.leb (S754_finite false m e) (F64.of_Z 1) = true.
Proof.
  intros He Hm. rewrite of_Z_one. unfold F64.leb. cbn [SFleb SFcompare].
  destruct (Z.compare_spec e (-52)) as [E52|Hlt|Hgt].
  - subst e. change (- (-52)) with 52 in Hm. rewrite pow2_52 in Hm.
    apply compare_cont_le. exact Hm.
  - reflexivity.
  - exfalso. lia.
Qed.

Lemma binary_round_aux_le_one mx ex lx :
  ex <= -52 -> below_one (shr_record_of_loc mx lx) ex ->
  F64.leb (binary_round_aux prec emax false mx ex lx) (F64.of_Z 1) = true.
Proof.
  intros He H. unfold binary_round_aux.
  destruct (shr_fexp_below mx ex lx H) as [H1 He1].
  destruct (shr_fexp prec emax mx ex lx) as [mrs' e']. cbn [fst snd] in H1, He1.
  pose proof (round_below mrs' e' H1) as Hr.
  assert (He' : e' <= 0) by (destruct H1; assumption).
  destruct (shr_fexp_below _ e' loc_Exact (below_one_exact _ e' He' Hr))
    as [H2 He2].
  destruct (shr_fexp prec emax _ e' loc_Exact) as [mrs'' e''].
  cbn [fst snd] in H2, He2.
  assert (He'' : e'' <= -52) by (clear - He He1 He2; lia).
  destruct H2 as (_ & Hm'' & _).
  destruct (shr_m mrs'') as [|m|m].
  - rewrite of_Z_one. reflexivity.
  - assert (E : (e'' <=? emax - prec) = true)
      by (apply Z.leb_le; unfold emax, prec; clear - He''; lia).
    rewrite E. apply finite_le_one; [exact He'' | apply Hm''].
  - exfalso. clear - Hm''. lia.
Qed.

Lemma inexact_of_loc m l :
  inexact (shr_record_of_loc m l) = true -> l <> loc_Exact.
Proof. intros H ->. discriminate H. Qed.

Lemma new_location_exact n r : new_location n r = loc_Exact -> r = 0.
Proof.
  unfold new_location, new_location_even, new_location_odd.
  destruct (Z.even n); destruct (Z.eqb_spec r 0) as [E|E];
    try (intros _; exact E); try discriminate.
  all: destruct (_ ?= _); discriminate.
Qed.

Lemma valid_le_digits mx ex my ey :
  valid_binary prec emax (S754_finite false mx ex) = true ->
  valid_binary prec emax (S754_finite false my ey) = true ->
  SFleb (S754_finite false mx ex) (S754_finite false my ey) = true ->
  Z.pos (digits2_pos mx) + ex <= Z.pos (digits2_pos my) + ey.
Proof.
  intros Hx Hy Hle.
  destruct (valid_le_mantissas mx ex my ey Hx Hy Hle) as [He Hm].
  pose proof (digits2_pos_bounds mx) as [Hx1 _].
  pose proof (digits2_pos_bounds my) as [_ Hy2].
  assert (Hp : 0 < 2 ^ (ey - ex)) by (apply Z.pow_pos_nonneg; lia).
  assert (H : 2 ^ (Z.pos (digits2_pos mx) - 1)
              < 2 ^ (Z.pos (digits2_pos my) + (ey - ex))).
  { rewrite (Z.pow_add_r 2 (Z.pos (digits2_pos my))) by lia.
    eapply Z.le_lt_trans; [exact Hx1|]. eapply Z.le_lt_trans; [exact Hm|].
    apply Z.mul_lt_mono_pos_r; assumption. }
  apply Z.pow_lt_mono_r_iff in H; lia.
Qed.

Lemma SFdiv_le_one mx ex my ey :
  valid_binary prec emax (S754_finite false mx ex) = true ->
  valid_binary prec emax (S754_finite false my ey) = true ->
  SFleb (S754_finite false mx ex) (S754_finite false my ey) = true ->
  F64.leb (SFdiv prec emax (S754_finite false mx ex) (S754_finite false my ey))
          (F64.of_Z 1) = true.
Proof.
  intros Hx Hy Hle.
  destruct (valid_le_mantissas mx ex my ey Hx Hy Hle) as [He Hm].
  pose proof (valid_le_digits mx ex my ey Hx Hy Hle) as Hd.
  clear Hx Hy Hle.
  unfold SFdiv, SFdiv_core_binary. cbn [xorb Zdigits2].
  set (ez := Z.min _ (ex - ey)).
  assert (Hez : ez <= ex - ey) by (subst ez; apply Z.le_min_r).
  assert (Hez' : ez <= -53).
  { subst ez. etransitivity; [apply Z.le_min_l|].
    unfold fexp, emin, prec, emax. lia. }
  set (s := ex - ey - ez).
  assert (Hs : 0 <= s) by (subst s; lia).
  set (m' := match s with Z0 => Z.pos mx | Z.pos _ => Z.shiftl (Z.pos mx) s
                     | Z.neg _ => 0 end).
  assert (Hm' : m' = Z.pos mx * 2 ^ s).
  { subst m'. destruct s as [|p|p] eqn:Es; try lia.
    apply Z.shiftl_mul_pow2. lia. }
  assert (Hps : 0 < 2 ^ s) by (apply Z.pow_pos_nonneg; lia).
  assert (Hb : m' <= Z.pos my * 2 ^ (- ez)).
  { rewrite Hm'. replace (- ez) with ((ey - ex) + s) by (subst s; lia).
    rewrite Z.pow_add_r by lia.
    set (a := 2 ^ (ey - ex)) in *. set (b := 2 ^ s) in *. nia. }
  assert (Hm0 : 0 <= m') by (rewrite Hm'; lia).
  pose proof (Z_div_mod m' (Z.pos my) ltac:(lia)) as Hdm.
  destruct (Z.div_eucl m' (Z.pos my)) as [q r]. destruct Hdm as [Hdm Hr].
  apply binary_round_aux_le_one; [lia|].
  assert (Hpe : 0 < 2 ^ (- ez)) by (apply Z.pow_pos_nonneg; lia).
  assert (Hq0 : 0 <= q) by (clear - Hdm Hr Hm0; nia).
  assert (Hq : q <= 2 ^ (- ez)).
  { clear - Hdm Hr Hb Hpe. set (K := 2 ^ (- ez)) in *. nia. }
  split; [lia|]. rewrite shr_record_of_loc_m. split; [lia|].
  intros Hin. apply inexact_of_loc in Hin.
  assert (Hr0 : r <> 0).
  { intros ->. apply Hin. unfold new_location, new_location_even, new_location_odd.
    destruct (Z.even (Z.pos my)); reflexivity. }
  clear - Hdm Hr Hb Hpe Hr0. set (K := 2 ^ (- ez)) in *. nia.
Qed.

Lemma div_le_one x y :
  F64.valid x = true -> F64.valid y = true ->
  nonneg x -> F64.is_finite x = true ->
  F64.ltb F64.zero y = true -> F64.leb x y = true ->
  F64.leb (F64.div x y) (F64.of_Z 1) = true.
Proof.
  intros Vx Vy Hx Fx Hy Hle.
  assert (Hy' : y = S754_infinity false \/ exists m e, y = S754_finite false m e).
  { destruct y as [s|[]| |[] m e]; try discriminate Hy; eauto. }
  destruct (nonneg_cases x Hx) as [[sx ->]|[->|(mx & ex & ->)]];
    try discriminate Fx;
    destruct Hy' as [->|(my & ey & ->)]; try (rewrite of_Z_one; reflexivity).
  apply SFdiv_le_one; assumption.
Qed.

End BelowOne.

(** X14. For an emitted record whose alloc and total are binary64 numbers
    with 0 <= alloc <= total, alloc finite and total positive, the
    utilization is at most 1: the rounding of alloc / total never goes
    above 1. *)
Theorem utilization_at_most_one (totals allocs : gmap string float64)
    (k : string) (r : GPUsMetrics) :
  AggregateGPUs totals allocs !! k = Some r ->
  F64.valid (alloc r) = true -> F64.valid (total r) = true ->
  F64.is_finite (alloc r) = true -> nonneg (alloc r) ->
  F64.ltb F64.zero (total r) = true ->
  F64.leb (alloc r) (total r) = true ->
  F64.leb (utilization r) (F64.of_Z 1) = true.
Proof.
  rewrite AggregateGPUs_lookup.
  destruct (totals !! k) as [t|]; [|discriminate].
  intros [= <-]. simpl. intros Va Vt Hfin Ha Ht Hle.
  apply div_le_one; assumption.
Qed.

Lemma utilization_at_most_one_witness :
  F64.leb (F64.div (F64.of_Z 20) (F64.of_Z 24)) (F64.of_Z 1) = true.
Proof.
  apply (utilization_at_most_one
           {[ "k80" := F64.of_Z 24 ]} {[ "k80" := F64.of_Z 20 ]} "k80"
           {| alloc := F64.of_Z 20; idle := F64.of_Z 4; total := F64.of_Z 24;
              utilization := F64.div (F64.of_Z 20) (F64.of_Z 24) |});
    vm_compute; reflexivity.
Defined.
